(** * Recycle Cam: a shallow embedding of [app.js] and [mappings.js]

  The development follows the two source files:

  - [Strings]: the JavaScript string operations the program calls
    ([toLowerCase], [includes], [split(..)[0]], [trim]);
  - [Mappings]: the lexicon of [mappings.js];
  - [Matcher]: [mapToRecycleBucket];
  - [Smoothing]: the rolling detection history and [getMostFrequent];
  - [Scoring]: [validateAndScoreDetection] and [updateConfidence];
  - [Loop]: the body of the detection loop, as a state transformer over the
    program's global variables and the part of the page it writes to;
  - [Regions]: the rectangles [classifyRegion] and [classifyCenterRegion]
    cut out of the video, with the classifier as a parameter;
  - [Frames]: the kinds of frames a run of the loop is made of;
  - [Doubles]: [updateConfidence] and [validateAndScoreDetection] over IEEE
    doubles.

  Conventions.  A JavaScript string is modelled as a [string] whose
  characters are the code units U+0000..U+00FF; [toLowerCase] is closed on
  that range and is modelled exactly there.  A JavaScript number that holds
  a measurement or a probability is modelled twice: as a real number in
  [Scoring] and [Loop], for the laws that do not turn on rounding, and as an
  IEEE double in [Doubles], for what the program decides at a threshold.  A
  number that holds a count or the result of [Math.round] is an integer. *)

From Stdlib Require Import List String Ascii Bool Arith NArith ZArith Lia.
From Stdlib Require Import Reals Lra.
From Stdlib Require Floats.
Import ListNotations.

Local Open Scope string_scope.
Local Open Scope bool_scope.

(* ====================================================================== *)
(** * String operations *)
(* ====================================================================== *)

Module Strings.

Definition code (c : ascii) : N := N_of_ascii c.

Definition inRange (lo hi n : N) : bool := ((lo <=? n) && (n <=? hi))%N.

(** [String.prototype.toLowerCase] on one code unit of U+0000..U+00FF:
    A-Z and the capital letters U+00C0..U+00DE (U+00D7, the multiplication
    sign, excepted) move up by 32; every other code unit is unchanged. *)
Definition lowerChar (c : ascii) : ascii :=
  let n := code c in
  if inRange 65 90 n || (inRange 192 222 n && negb (n =? 215)%N)
  then ascii_of_N (n + 32)
  else c.

Fixpoint toLowerCase (s : string) : string :=
  match s with
  | EmptyString => EmptyString
  | String c s' => String (lowerChar c) (toLowerCase s')
  end.

(** [String.prototype.toUpperCase] on one code unit of U+0000..U+00FF.
    The program never calls it; it is here because the matcher's
    case-insensitivity is stated with it.  a-z and U+00E0..U+00FE (U+00F7,
    the division sign, excepted) move down by 32; U+00DF (sharp s) becomes
    the two letters SS; the upper-case forms of U+00B5 and U+00FF lie
    outside the 8-bit range, so no result is given for them. *)
Definition upperChar (c : ascii) : option string :=
  let n := code c in
  if (n =? 181)%N || (n =? 255)%N then None
  else if (n =? 223)%N then Some "SS"
  else if inRange 97 122 n || (inRange 224 254 n && negb (n =? 247)%N)
  then Some (String (ascii_of_N (n - 32)) EmptyString)
  else Some (String c EmptyString).

Fixpoint toUpperCase (s : string) : option string :=
  match s with
  | EmptyString => Some EmptyString
  | String c s' =>
      match upperChar c, toUpperCase s' with
      | Some u, Some r => Some (u ++ r)
      | _, _ => None
      end
  end.

(** [hay.includes(needle)]: [needle] occurs in [hay] as a substring. *)
Fixpoint includes (hay needle : string) : bool :=
  prefix needle hay ||
  match hay with
  | EmptyString => false
  | String _ hay' => includes hay' needle
  end.

(** [s.split(sep)[0]] for a one-character separator: the part of [s] before
    the first [sep], the whole of [s] when there is none. *)
Fixpoint splitHead (sep : ascii) (s : string) : string :=
  match s with
  | EmptyString => EmptyString
  | String c s' => if Ascii.eqb c sep then EmptyString else String c (splitHead sep s')
  end.

(** White space of [String.prototype.trim] within U+0000..U+00FF: tab, line
    feed, vertical tab, form feed, carriage return, space and U+00A0. *)
Definition isSpace (c : ascii) : bool :=
  let n := code c in inRange 9 13 n || (n =? 32)%N || (n =? 160)%N.

Fixpoint trimStart (s : string) : string :=
  match s with
  | EmptyString => EmptyString
  | String c s' => if isSpace c then trimStart s' else s
  end.

(** [trimEnd] keeps a character when it is not white space or when
    something is kept after it. *)
Fixpoint trimEnd (s : string) : string :=
  match s with
  | EmptyString => EmptyString
  | String c s' =>
      match trimEnd s' with
      | EmptyString => if isSpace c then EmptyString else String c EmptyString
      | r => String c r
      end
  end.

Definition trim (s : string) : string := trimEnd (trimStart s).

(** The clean-up the page applies to every name it shows:
    [name.split(",")[0].split("(")[0].trim()]. *)
Definition cleanName (name : string) : string :=
  trim (splitHead "(" (splitHead "," name)).

(** Every character of [s] is below U+0080. *)
Fixpoint isAscii (s : string) : bool :=
  match s with
  | EmptyString => true
  | String c s' => (code c <? 128)%N && isAscii s'
  end.

(** No character of [s] is U+00DF, the one character of U+0000..U+00FF whose
    upper-case form does not lower-case back to it. *)
Fixpoint sharpFree (s : string) : bool :=
  match s with
  | EmptyString => true
  | String c s' => negb (code c =? 223)%N && sharpFree s'
  end.

End Strings.

(* ====================================================================== *)
(** * mappings.js *)
(* ====================================================================== *)

Module Mappings.

Definition compost : list string :=
  [ "onion"; "red onion"; "yellow onion"; "white onion"; "shallot"; "garlic";
    "leek"; "Granny Smith"; "head cabbage"; "bell pepper"; "acorn squash";
    "butternut squash"; "cucumber"; "zucchini"; "eggplant"; "artichoke";
    "mushroom"; "turnip"; "kohlrabi" ].

Definition paper : list string := [].
Definition metal : list string := [].
Definition glass : list string := [].

Definition plastic : list string :=
  [ "water bottle"; "plastic bottle"; "bottle"; "pop bottle"; "water jug";
    "flask"; "pitcher"; "carafe"; "jug"; "canteen"; "thermos";
    "punching bag"; "punch bag"; "punching ball"; "vacuum"; "vase"; "shaker";
    "cocktail shaker"; "beer bottle"; "wine bottle"; "pill bottle";
    "water tower"; "cylinder"; "container"; "tumbler"; "mug"; "cup";
    "barrel"; "cask"; "drum" ].

Definition landfill : list string :=
  [ "ballpoint"; "ballpoint pen"; "ball pen"; "pen"; "fountain pen"; "quill";
    "quill pen"; "pencil"; "mechanical pencil"; "marker"; "felt-tip";
    "highlighter"; "writing implement"; "stylus"; "rule"; "rubber eraser";
    "plunger"; "plumber's helper"; "screwdriver"; "hammer"; "nail";
    "lipstick"; "torch"; "flashlight"; "lighter"; "candle"; "missile";
    "projectile"; "stick"; "baton"; "drumstick"; "match"; "matchstick";
    "stethoscope"; "syringe"; "thermometer";
    "sunglass"; "sunglasses"; "eyeglass"; "eyeglasses"; "glasses";
    "spectacles"; "reading glasses"; "eye glasses"; "goggles"; "loupe";
    "magnifying glass"; "lens"; "optical"; "frame"; "rimless"; "bifocal";
    "monocle" ].

(** [Object.entries(materialMappings)]: no key is an array index, so the
    entries come in the order the object literal declares them. *)
Definition materialMappings : list (string * list string) :=
  [ ("compost", compost); ("paper", paper); ("metal", metal);
    ("glass", glass); ("plastic", plastic); ("landfill", landfill) ].

End Mappings.

(* ====================================================================== *)
(** * mapToRecycleBucket *)
(* ====================================================================== *)

Module Matcher.
Import Strings.

(** What a caller can pass for [label]: [null], [undefined] or a string. *)
Inductive Label : Type :=
| JNull
| JUndefined
| JStr (s : string).

(** [label || ""]: [null], [undefined] and the empty string are falsy. *)
Definition orEmpty (label : Label) : string :=
  match label with
  | JNull | JUndefined => ""
  | JStr s => s
  end.

Record Bucket : Type := mkBucket { bucket : string; displayName : string }.

Definition eyewear : list string :=
  [ "sunglass"; "sunglasses"; "eyeglass"; "eyeglasses"; "glasses";
    "spectacles"; "reading glasses"; "goggles"; "loupe"; "lens"; "optical";
    "frame"; "monocle"; "bifocal" ].

(** The [switch (category)] of the source, on the lower-cased label [t]. *)
Definition classify (category t : string) : Bucket :=
  if category =? "compost" then mkBucket "Compost" "Onion"
  else if category =? "paper" then mkBucket "Paper / Cardboard" "Paper"
  else if category =? "metal" then mkBucket "Metal" "Metal Item"
  else if category =? "glass" then mkBucket "Glass" "Glass Item"
  else if category =? "plastic" then mkBucket "Plastic" "Water Bottle"
  else if category =? "landfill" then
    mkBucket "Landfill"
      (if existsb (fun g => includes t g) eyewear then "Glasses" else "Pen")
  else mkBucket "Unknown" "Item".

(** [t === item.toLowerCase() || t.includes(item.toLowerCase())]. *)
Definition hit (t item : string) : bool :=
  (t =? toLowerCase item) || includes t (toLowerCase item).

(** The inner [for (const item of items)]. *)
Fixpoint scanItems (t category : string) (items : list string) : option Bucket :=
  match items with
  | [] => None
  | item :: rest =>
      if hit t item then Some (classify category t)
      else scanItems t category rest
  end.

(** The outer [for (const [category, items] of ...)]. *)
Fixpoint scanCategories (t : string) (entries : list (string * list string))
  : option Bucket :=
  match entries with
  | [] => None
  | (category, items) :: rest =>
      match scanItems t category items with
      | Some b => Some b
      | None => scanCategories t rest
      end
  end.

Definition mapToRecycleBucket (label : Label) : option Bucket :=
  let t := toLowerCase (orEmpty label) in
  scanCategories t Mappings.materialMappings.

(** The (category, pattern) pairs of a lexicon in declaration order:
    categories in order, the patterns of each in order. *)
Definition pairs (entries : list (string * list string)) : list (string * string) :=
  flat_map (fun e => map (pair (fst e)) (snd e)) entries.

(** The first pair whose pattern the lower-cased label [t] equals or contains. *)
Definition firstPair (t : string) (entries : list (string * list string))
  : option (string * string) :=
  find (fun p => hit t (snd p)) (pairs entries).

End Matcher.

(* ====================================================================== *)
(** * Temporal smoothing: the rolling history and getMostFrequent *)
(* ====================================================================== *)

Module Smoothing.

Definition HISTORY_SIZE : nat := 5.
Definition MIN_FREQUENCY : nat := 2.

(** [detectionHistory.push(displayName);
     if (detectionHistory.length > HISTORY_SIZE) detectionHistory.shift();] *)
Definition pushHistory (history : list string) (displayName : string) : list string :=
  let pushed := (history ++ [displayName])%list in
  if (HISTORY_SIZE <? List.length pushed)%nat then tl pushed else pushed.

(** The names an empty object inherits from [Object.prototype]. *)
Definition inheritedNames : list string :=
  [ "__proto__"; "constructor"; "hasOwnProperty"; "isPrototypeOf";
    "propertyIsEnumerable"; "toLocaleString"; "toString"; "valueOf";
    "__defineGetter__"; "__defineSetter__"; "__lookupGetter__";
    "__lookupSetter__" ].

Fixpoint allDigits (s : string) : bool :=
  match s with
  | EmptyString => true
  | String c s' => Strings.inRange 48 57 (Strings.code c) && allDigits s'
  end.

(** A string that, used as a key of an empty object, names a property of its
    own that is listed in the order of insertion: not one of the inherited
    names, and not made of digits only (which leaves out every array index,
    the keys that are listed first). *)
Definition ordinaryName (s : string) : bool :=
  negb (existsb (String.eqb s) inheritedNames) &&
  ((s =? "") || negb (allDigits s)).

(** The object [freq], as its own properties in enumeration order.  The
    model is that of an object whose keys are ordinary names
    ([ordinaryName]), as the display names the program stores are: a new key
    goes last, its count starts at 1, and [Object.entries] lists the keys in
    the order of their first occurrence.  On other keys a plain object
    behaves otherwise, and nothing is stated of [getMostFrequent] there
    beyond the states the loop reaches. *)
Definition Freq : Type := list (string * nat).

(** [freq[item] = (freq[item] || 0) + 1]. *)
Fixpoint bump (freq : Freq) (item : string) : Freq :=
  match freq with
  | [] => [(item, 1)]
  | (key, n) :: rest =>
      if key =? item then (key, n + 1) :: rest else (key, n) :: bump rest item
  end.

Definition tally (arr : list string) : Freq := fold_left bump arr [].

(** [freq[key] || 0]. *)
Fixpoint get (freq : Freq) (key : string) : nat :=
  match freq with
  | [] => 0
  | (k, n) :: rest => if k =? key then n else get rest key
  end.

(** [entries.sort((a, b) => b[1] - a[1])]: descending by count.  The sort of
    the language is stable, so entries of equal count keep their order;
    a stable insertion sort gives the same array. *)
Fixpoint insertDesc (e : string * nat) (sorted : Freq) : Freq :=
  match sorted with
  | [] => [e]
  | e' :: rest =>
      if (snd e <? snd e')%nat then e' :: insertDesc e rest else e :: sorted
  end.

Definition sortDesc (entries : Freq) : Freq := fold_right insertDesc [] entries.

(** The pair [[mostFrequentItem, frequency]]; [None] stands for [null]. *)
Definition getMostFrequent (arr : list string) : option string * nat :=
  match arr with
  | [] => (None, 0)
  | _ =>
      match sortDesc (tally arr) with
      | (name, n) :: _ => (Some name, n)
      | [] => (None, 0)
      end
  end.

(** Truthiness of a value that is [null] or a string. *)
Definition truthy (name : option string) : bool :=
  match name with
  | None => false
  | Some s => negb (s =? "")
  end.

(** The test [freq >= MIN_FREQUENCY && stableName] of the loop. *)
Definition confirmed (history : list string) : bool :=
  let '(stableName, freq) := getMostFrequent history in
  (MIN_FREQUENCY <=? freq)%nat && truthy stableName.

(** The last [n] elements of a list. *)
Definition lastn {A : Type} (n : nat) (l : list A) : list A :=
  skipn (List.length l - n) l.

(** The history after a run of accepted observations, oldest first. *)
Definition observeAll (history : list string) (names : list string) : list string :=
  fold_left pushHistory names history.

End Smoothing.

(* ====================================================================== *)
(** * Scoring: validateAndScoreDetection and the confidence meter *)
(* ====================================================================== *)

Module Scoring.
Local Open Scope R_scope.

(** The comparisons [x < y] and [x <= y] of two numbers, as the conditions
    of the program use them. *)
Definition Rltb (x y : R) : bool := if Rlt_dec x y then true else false.
Definition Rleb (x y : R) : bool := if Rle_dec x y then true else false.

(** [Math.round]: the nearest integer, a half going up. *)
Definition Math_round (x : R) : Z := Zfloor (x + / 2).

(** [canvas.width] and [canvas.height]. *)
Record Canvas : Type := mkCanvas { width : R; height : R }.

(** A bounding box [[x, y, width, height]]. *)
Definition BBox : Type := (R * R * R * R)%type.

Definition sizeRatio (canvas : Canvas) (bbox : BBox) : R :=
  let '(_, _, w, h) := bbox in
  let frameArea := width canvas * height canvas in
  let bboxArea := w * h in
  bboxArea / frameArea.

Definition centerDist (canvas : Canvas) (bbox : BBox) : R :=
  let '(x, y, w, h) := bbox in
  let cx := x + w / 2 in
  let cy := y + h / 2 in
  let dx := (cx - width canvas / 2) / (width canvas / 2) in
  let dy := (cy - height canvas / 2) / (height canvas / 2) in
  sqrt (dx * dx + dy * dy) / sqrt 2.

(** [None] stands for the [null] of a rejected detection.  Over the reals;
    [Doubles.validateAndScoreDetection] is the function over IEEE doubles. *)
Definition validateAndScoreDetection (canvas : Canvas) (bbox : BBox) (score : R)
  : option R :=
  let ratio := sizeRatio canvas bbox in
  if Rltb ratio 0.02 || Rltb 0.85 ratio then None
  else
    let centerBoost := (1 - centerDist canvas bbox) * 0.2 in
    let sizeBoost := if Rleb 0.1 ratio && Rleb ratio 0.5 then 0.1 else 0 in
    let boostedScore := score * (1 + centerBoost + sizeBoost) in
    Some (Rmin boostedScore 1.0).

Inductive Tier : Type := low | medium | high.

(** What [updateConfidence] writes: the percentage (width and text of the
    meter) and the one colour class it leaves on the fill.  Over the reals;
    [Doubles.updateConfidence] is the function over IEEE doubles. *)
Record Meter : Type := mkMeter { percent : Z; tier : Tier }.

Definition updateConfidence (score : R) : Meter :=
  let boostedScore := Rmin (score * 3) 1.0 in
  let percent := Z.min (Math_round (boostedScore * 100)) 100 in
  mkMeter percent
    (if (percent <? 40)%Z then low
     else if (percent <? 70)%Z then medium
     else high).

End Scoring.

(* ====================================================================== *)
(** * The detection loop *)
(* ====================================================================== *)

Module Loop.
Import Strings Matcher Smoothing Scoring.
Local Open Scope R_scope.

(** One entry of the classifier's answer. *)
Record Prediction : Type := mkPrediction { className : string; probability : R }.

(** The pictographs the page shows; they lie outside U+0000..U+00FF and are
    kept by name. *)
Inductive Icon : Type :=
| FallenLeaf | Package | CannedFood | BottleWithCork | LotionBottle
| Wastebasket | Magnifier | DirectHit | Ruler | LightBulb | CheckMark.

Inductive TipKey : Type := noObject | tooSmall | lowConfidence | success.

Record Tip : Type := mkTip { icon : Icon; text : string }.

Definition tips (key : TipKey) : Tip :=
  match key with
  | noObject => mkTip DirectHit "Place an object in the center"
  | tooSmall => mkTip Ruler "Move closer to the object"
  | lowConfidence => mkTip LightBulb "Try better lighting or plain background"
  | success => mkTip CheckMark "Object detected!"
  end.

Record CategoryStyle : Type :=
  mkStyle { styleIcon : Icon; styleClass : string; styleKey : string }.

Definition landfillStyle : CategoryStyle := mkStyle Wastebasket "unknown" "unknown".

(** [categoryConfig[bucket] || categoryConfig["Landfill / Unknown"]], for a
    bucket that is not one of the names an object inherits
    ([Smoothing.inheritedNames]); the program looks up the matcher's buckets
    only. *)
Definition categoryConfig (bucket : string) : CategoryStyle :=
  if bucket =? "Compost" then mkStyle FallenLeaf "compost" "compost"
  else if bucket =? "Paper / Cardboard" then mkStyle Package "paper" "paper"
  else if bucket =? "Metal" then mkStyle CannedFood "metal" "metal"
  else if bucket =? "Glass" then mkStyle BottleWithCork "glass" "glass"
  else if bucket =? "Plastic" then mkStyle LotionBottle "plastic" "plastic"
  else landfillStyle.

(** The text of [detectionText]: the dash U+2014 or a string. *)
Inductive HudText : Type := EmDash | Text (s : string).

(** What is on the overlay canvas: nothing, or the circle of the last
    [drawCircleBox(x, y, w, h, label, score)]. *)
Inductive Overlay : Type :=
| Cleared
| Circle (x y w h : R) (label : string) (score : R).

(** The part of the page the loop writes to. *)
Record Page : Type := mkPage {
  categoryIcon : Icon;
  categoryIconClass : string;
  hudCategory : string;
  categoryValue : string;
  detectionText : HudText;
  detectionDotInactive : bool;
  tipIcon : Icon;
  tipText : string;
  tipsBannerSuccess : bool;
  meter : Meter;
  targetZoneDetected : bool;
  overlay : Overlay
}.

(** The global variables of the program and the page. *)
Record State : Type := mkState {
  running : bool;
  canvas : Canvas;
  detectionHistory : list string;
  noDetectionFrames : nat;
  lowConfidenceFrames : nat;
  page : Page
}.

(** [updateCategoryUI(bucket, objectName)]; [None] stands for [null]. *)
Definition updateCategoryUI (bucket objectName : option string) (p : Page) : Page :=
  match bucket with
  | None =>
      mkPage Magnifier "unknown" "unknown" "Scanning..." EmDash true
             (tipIcon p) (tipText p) (tipsBannerSuccess p) (meter p)
             (targetZoneDetected p) (overlay p)
  | Some b =>
      let config := categoryConfig b in
      let named := truthy objectName in
      mkPage (styleIcon config) (styleClass config) (styleKey config) b
             (match objectName with
              | Some name => if named then Text (cleanName name) else Text "Scanning..."
              | None => Text "Scanning..."
              end)
             (negb named)
             (tipIcon p) (tipText p) (tipsBannerSuccess p) (meter p)
             (targetZoneDetected p) (overlay p)
  end.

Definition setTip (i : Icon) (t : string) (banner : bool) (p : Page) : Page :=
  mkPage (categoryIcon p) (categoryIconClass p) (hudCategory p) (categoryValue p)
         (detectionText p) (detectionDotInactive p)
         i t banner (meter p) (targetZoneDetected p) (overlay p).

Definition isSuccess (key : TipKey) : bool :=
  match key with success => true | _ => false end.

(** [updateTip(tipKey, objectName)]. *)
Definition updateTip (key : TipKey) (objectName : option string) (p : Page) : Page :=
  let tip := tips key in
  let shown :=
    match objectName with
    | Some name =>
        if isSuccess key && truthy objectName
        then "Detected: " ++ cleanName name
        else text tip
    | None => text tip
    end in
  setTip (icon tip) shown (isSuccess key) p.

Definition setMeter (m : Meter) (p : Page) : Page :=
  mkPage (categoryIcon p) (categoryIconClass p) (hudCategory p) (categoryValue p)
         (detectionText p) (detectionDotInactive p)
         (tipIcon p) (tipText p) (tipsBannerSuccess p) m
         (targetZoneDetected p) (overlay p).

Definition setDetected (d : bool) (p : Page) : Page :=
  mkPage (categoryIcon p) (categoryIconClass p) (hudCategory p) (categoryValue p)
         (detectionText p) (detectionDotInactive p)
         (tipIcon p) (tipText p) (tipsBannerSuccess p) (meter p) d (overlay p).

Definition setOverlay (o : Overlay) (p : Page) : Page :=
  mkPage (categoryIcon p) (categoryIconClass p) (hudCategory p) (categoryValue p)
         (detectionText p) (detectionDotInactive p)
         (tipIcon p) (tipText p) (tipsBannerSuccess p) (meter p)
         (targetZoneDetected p) o.

(** [predictions.slice(0, 3)]. *)
Definition top3 (predictions : list Prediction) : list Prediction := firstn 3 predictions.

(** The test of the [for] loop and its [break]: the first prediction, in
    order, that the matcher recognises and whose probability is above 0.05,
    with the matcher's answer for it. *)
Fixpoint firstAccepted (preds : list Prediction) : option (Prediction * Bucket) :=
  match preds with
  | [] => None
  | pred :: rest =>
      match mapToRecycleBucket (JStr (className pred)) with
      | Some result =>
          if Rltb 0.05 (probability pred) then Some (pred, result)
          else firstAccepted rest
      | None => firstAccepted rest
      end
  end.

(** The circle the loop draws: a square of side 0.7 of the shorter side of
    the canvas, centred. *)
Definition defaultRegion (c : Canvas) : BBox :=
  let size := Rmin (width c) (height c) * 0.7 in
  let x := (width c - size) / 2 in
  let y := (height c - size) / 2 in
  (x, y, size, size).

(** The body of [if (result !== null && pred.probability > 0.05) { ... }]. *)
Definition onMatch (st : State) (pred : Prediction) (result : Bucket) : State :=
  let finalScore := probability pred in
  let history := pushHistory (detectionHistory st) (displayName result) in
  let '(x, y, w, h) := defaultRegion (canvas st) in
  let p1 := setOverlay (Circle x y w h (displayName result) finalScore) (page st) in
  let p2 := setMeter (updateConfidence finalScore) p1 in
  let p3 :=
    if Rltb finalScore 0.15 then updateTip lowConfidence None p2
    else updateTip success (Some (displayName result)) p2 in
  let '(stableName, freq) := getMostFrequent history in
  let p4 :=
    if (MIN_FREQUENCY <=? freq)%nat && truthy stableName
    then updateCategoryUI (Some (bucket result)) stableName (setDetected true p3)
    else p3 in
  mkState (running st) (canvas st) history 0 (lowConfidenceFrames st) p4.

(** The body of [if (!matched) { ... }]; [topPred] is [predictions[0]]. *)
Definition onNoMatch (st : State) (topPred : Prediction) : State :=
  let p1 := setOverlay Cleared (page st) in
  let p2 := setDetected false p1 in
  let p3 := setTip Magnifier ("Seeing: " ++ className topPred) (tipsBannerSuccess p2) p2 in
  let p4 := updateCategoryUI None None p3 in
  let p5 := setMeter (updateConfidence 0) p4 in
  mkState (running st) (canvas st) (detectionHistory st)
          (S (noDetectionFrames st)) (lowConfidenceFrames st) p5.

(** The body of [if (predictions.length > 0) { ... }] and the case of an
    empty answer, in which the loop does nothing. *)
Definition processPredictions (st : State) (predictions : list Prediction) : State :=
  match predictions with
  | [] => st
  | topPred :: _ =>
      match firstAccepted (top3 predictions) with
      | Some (pred, result) => onMatch st pred result
      | None => onNoMatch st topPred
      end
  end.

(** How [await mobileNetModel.classify(video)] ends. *)
Inductive Classified : Type :=
| Rejected
| Resolved (predictions : list Prediction).

(** One turn of [loop]: [ready] is [mobileNetModel && video.readyState >= 2];
    a rejected classification is caught and leaves everything as it was. *)
Definition loop (st : State) (ready : bool) (answer : Classified) : State :=
  if negb (running st) then st
  else if ready then
    match answer with
    | Rejected => st
    | Resolved predictions => processPredictions st predictions
    end
  else st.

(** A run of the loop over the frames of a session. *)
Definition runFrames (st : State) (frames : list (bool * Classified)) : State :=
  fold_left (fun s frame => loop s (fst frame) (snd frame)) frames st.

(** The page as the start button's handler leaves it
    ([updateCategoryUI(null, null); updateTip("noObject")]), with an empty
    meter and a clear overlay. *)
Definition startPage : Page :=
  mkPage Magnifier "unknown" "unknown" "Scanning..." EmDash true
         DirectHit "Place an object in the center" false
         (mkMeter 0 low) false Cleared.

(** The program when the loop first runs, on a 1280 x 720 canvas. *)
Definition startState : State :=
  mkState true (mkCanvas 1280 720) [] 0 0 startPage.

End Loop.

(* ====================================================================== *)
(** * Cropping: classifyRegion and classifyCenterRegion *)
(* ====================================================================== *)

Module Regions.
Import Scoring Loop.
Local Open Scope R_scope.

(** [video.videoWidth] and [video.videoHeight]. *)
Record Video : Type := mkVideo { videoWidth : R; videoHeight : R }.

(** The part of the video that [classifyRegion] draws, scaled, onto its
    224 x 224 canvas: the arguments [srcX, srcY, srcW, srcH] of
    [drawImage]. *)
Definition sourceRect (video : Video) (bbox : BBox) : BBox :=
  let '(x, y, w, h) := bbox in
  let padding := Rmin w h * 0.1 in
  let srcX := Rmax 0 (x - padding) in
  let srcY := Rmax 0 (y - padding) in
  let srcW := Rmin (videoWidth video - srcX) (w + padding * 2) in
  let srcH := Rmin (videoHeight video - srcY) (h + padding * 2) in
  (srcX, srcY, srcW, srcH).

(** [classifyRegion(bbox)].  The classifier is a parameter: [classify r] is
    how [mobileNetModel.classify] ends on the canvas that holds the part [r]
    of the video. *)
Definition classifyRegion (classify : BBox -> Classified) (video : Video)
           (bbox : BBox) : Classified :=
  classify (sourceRect video bbox).

(** The square [classifyCenterRegion] draws: 0.85 of the shorter side of the
    video, centred. *)
Definition centerRect (video : Video) : BBox :=
  let centerSize := Rmin (videoWidth video) (videoHeight video) * 0.85 in
  let x := (videoWidth video - centerSize) / 2 in
  let y := (videoHeight video - centerSize) / 2 in
  (x, y, centerSize, centerSize).

(** The object [{ predictions, bbox }]. *)
Record CenterResult : Type :=
  mkCenterResult { predictions : list Prediction; bbox : BBox }.

(** [classifyCenterRegion()]; [None] stands for the rejection that a
    rejected classification passes on. *)
Definition classifyCenterRegion (classify : BBox -> Classified) (video : Video)
  : option CenterResult :=
  match classify (centerRect video) with
  | Rejected => None
  | Resolved predictions => Some (mkCenterResult predictions (centerRect video))
  end.

End Regions.

(* ====================================================================== *)
(** * Kinds of frames *)
(* ====================================================================== *)

Module Frames.
Import Matcher Loop.

(** A frame of a run: whether model and video were ready, and how the
    classification ended. *)
Definition Frame : Type := (bool * Classified)%type.

(** A frame on which the loop does not reach its branches: model or video
    not ready, the classification rejected, or no prediction at all. *)
Definition isIdle (frame : Frame) : Prop :=
  fst frame = false \/ snd frame = Rejected \/ snd frame = Resolved [].

(** A frame on which the loop accepts a prediction. *)
Definition isHit (frame : Frame) : Prop :=
  fst frame = true /\
  exists predictions pred result,
    snd frame = Resolved predictions /\
    firstAccepted (top3 predictions) = Some (pred, result).

(** A frame on which the loop accepts a prediction that the matcher gives
    the display name [name]. *)
Definition acceptsName (frame : Frame) (name : string) : Prop :=
  fst frame = true /\
  exists predictions pred result,
    snd frame = Resolved predictions /\
    firstAccepted (top3 predictions) = Some (pred, result) /\
    displayName result = name.

(** A frame with predictions of which the loop accepts none. *)
Definition isMiss (frame : Frame) : Prop :=
  fst frame = true /\
  exists topPred rest,
    snd frame = Resolved (topPred :: rest) /\
    firstAccepted (top3 (topPred :: rest)) = None.

(** The display names a run of frames has the loop append, in order: a
    frame with an accepted prediction gives its name, an idle frame and a
    frame without accepted prediction give none. *)
Inductive observed : list Frame -> list string -> Prop :=
| observed_nil : observed [] []
| observed_hit (frame : Frame) (name : string) (frames : list Frame)
               (names : list string) :
    acceptsName frame name -> observed frames names ->
    observed (frame :: frames) (name :: names)
| observed_skip (frame : Frame) (frames : list Frame) (names : list string) :
    isIdle frame \/ isMiss frame -> observed frames names ->
    observed (frame :: frames) names.

End Frames.

(* ====================================================================== *)
(** * The scoring over IEEE doubles *)
(* ====================================================================== *)

Module Doubles.
Import PrimFloat SpecFloat FloatOps.
Local Open Scope bool_scope.
Local Open Scope float_scope.
#[local] Set Warnings "-inexact-float".

(** What [Math.round] returns: a whole number, [NaN] or an infinity.  A
    double of whole value is held as that value. *)
Inductive Rounded : Type :=
| Whole (z : Z)
| NotANumber
| PlusInfinity
| MinusInfinity.

(** [Math.round(x)]: the whole number nearest to [x], a half going up.  A
    finite double is [n * 2 ^ e] for the whole numbers [n] and [e] that
    [Prim2SF] gives; the nearest whole number is the floor of that value
    plus a half, computed exactly. *)
Definition Math_round (x : float) : Rounded :=
  match Prim2SF x with
  | S754_zero _ => Whole 0
  | S754_infinity false => PlusInfinity
  | S754_infinity true => MinusInfinity
  | S754_nan => NotANumber
  | S754_finite s m e =>
      let n := if s then Z.neg m else Z.pos m in
      if (0 <=? e)%Z then Whole (n * 2 ^ e)
      else Whole ((2 * n + 2 ^ (- e)) / (2 * 2 ^ (- e)))
  end.

(** [Math.min(a, b)] on two doubles: [NaN] when either is, and -0 below +0. *)
Definition Math_min (a b : float) : float :=
  if is_nan a || is_nan b then nan
  else if a <? b then a
  else if b <? a then b
  else if is_zero a && get_sign b then b
  else a.

(** [Math.min(r, k)] for a rounded [r] and a whole number [k]. *)
Definition minWhole (r : Rounded) (k : Z) : Rounded :=
  match r with
  | Whole z => Whole (Z.min z k)
  | NotANumber => NotANumber
  | PlusInfinity => Whole k
  | MinusInfinity => MinusInfinity
  end.

(** [r < k] for a rounded [r] and a whole number [k]. *)
Definition lessThan (r : Rounded) (k : Z) : bool :=
  match r with
  | Whole z => (z <? k)%Z
  | MinusInfinity => true
  | NotANumber | PlusInfinity => false
  end.

(** What [updateConfidence] writes, as in [Scoring.Meter]. *)
Record Meter : Type := mkMeter { percent : Rounded; tier : Scoring.Tier }.

Definition updateConfidence (score : float) : Meter :=
  let boostedScore := Math_min (score * 3) 1.0 in
  let percent := minWhole (Math_round (boostedScore * 100)) 100 in
  mkMeter percent
    (if lessThan percent 40 then Scoring.low
     else if lessThan percent 70 then Scoring.medium
     else Scoring.high).

(** [sizeRatio] of the source: the share of the frame the box covers. *)
Definition sizeRatio (canvasWidth canvasHeight w h : float) : float :=
  let frameArea := canvasWidth * canvasHeight in
  let bboxArea := w * h in
  bboxArea / frameArea.

(** [validateAndScoreDetection(bbox, score)] on a canvas of the given width
    and height; [None] stands for [null]. *)
Definition validateAndScoreDetection (canvasWidth canvasHeight : float)
           (bbox : float * float * float * float) (score : float) : option float :=
  let '(x, y, w, h) := bbox in
  let ratio := sizeRatio canvasWidth canvasHeight w h in
  if (ratio <? 0.02) || (0.85 <? ratio) then None
  else
    let cx := x + w / 2 in
    let cy := y + h / 2 in
    let dx := (cx - canvasWidth / 2) / (canvasWidth / 2) in
    let dy := (cy - canvasHeight / 2) / (canvasHeight / 2) in
    let centerDist := sqrt (dx * dx + dy * dy) / sqrt 2 in
    let centerBoost := (1 - centerDist) * 0.2 in
    let sizeBoost := if (0.1 <=? ratio) && (ratio <=? 0.5) then 0.1 else 0 in
    let boostedScore := score * (1 + centerBoost + sizeBoost) in
    Some (Math_min boostedScore 1.0).

(** A double that is not [NaN] and not below zero: a zero of either sign, a
    positive number or plus infinity. *)
Definition notBelowZero (x : spec_float) : bool :=
  match x with
  | S754_zero _ => true
  | S754_infinity s => negb s
  | S754_nan => false
  | S754_finite s _ _ => negb s
  end.

End Doubles.

Import Strings Matcher Smoothing Scoring Loop.

(* ====================================================================== *)
(** * The matcher *)
(* ====================================================================== *)

Section MatcherFacts.

(** The lower-cased label the scan runs on. *)
Variable t : string.

(** A generic list fact, used for the scan over the pairs of a lexicon. *)
Lemma find_append {A : Type} (f : A -> bool) (l1 l2 : list A) :
  find f (l1 ++ l2) = match find f l1 with Some x => Some x | None => find f l2 end.
Proof.
  induction l1 as [|a l1 IH]; simpl; [reflexivity|].
  destruct (f a); [reflexivity|exact IH].
Qed.

Lemma scanItems_some (category : string) (items : list string) (b : Bucket) :
  scanItems t category items = Some b ->
  b = classify category t /\ exists item, In item items /\ hit t item = true.
Proof.
  induction items as [|item rest IH]; simpl; [discriminate|].
  destruct (hit t item) eqn:E.
  - intros [= <-]. split; [reflexivity|]. exists item. auto.
  - intros H. destruct (IH H) as [-> [i [Hi Hh]]]. split; [reflexivity|].
    exists i. auto.
Qed.

Lemma scanItems_none (category : string) (items : list string) :
  scanItems t category items = None <-> forall item, In item items -> hit t item = false.
Proof.
  induction items as [|item rest IH]; simpl.
  - split; [intros _ i []|reflexivity].
  - destruct (hit t item) eqn:E.
    + split; [discriminate|]. intros H. rewrite (H item) in E; [discriminate|auto].
    + rewrite IH. split.
      * intros H i [<-|Hi]; auto.
      * intros H i Hi. apply H. auto.
Qed.

Lemma scanItems_hit (category : string) (items : list string) (item : string) :
  In item items -> hit t item = true ->
  scanItems t category items = Some (classify category t).
Proof.
  intros Hin Hhit. destruct (scanItems t category items) as [b|] eqn:E.
  - apply scanItems_some in E. destruct E as [-> _]. reflexivity.
  - rewrite scanItems_none in E. rewrite (E item Hin) in Hhit. discriminate.
Qed.

Lemma scanCategories_some (entries : list (string * list string)) (b : Bucket) :
  scanCategories t entries = Some b ->
  exists category items item,
    In (category, items) entries /\ In item items /\ hit t item = true /\
    b = classify category t.
Proof.
  induction entries as [|[category items] rest IH]; simpl; [discriminate|].
  destruct (scanItems t category items) as [b'|] eqn:E.
  - intros [= <-]. apply scanItems_some in E. destruct E as [-> [item [Hi Hh]]].
    exists category, items, item. auto.
  - intros H. destruct (IH H) as (c & its & i & Hc & Hi & Hh & ->).
    exists c, its, i. auto.
Qed.

Lemma scanItems_find (category : string) (items : list string) :
  scanItems t category items =
  option_map (fun p => classify (fst p) t)
             (find (fun p => hit t (snd p)) (map (pair category) items)).
Proof.
  induction items as [|item rest IH]; simpl; [reflexivity|].
  destruct (hit t item); [reflexivity|exact IH].
Qed.

Lemma scanCategories_find (entries : list (string * list string)) :
  scanCategories t entries =
  option_map (fun p => classify (fst p) t) (firstPair t entries).
Proof.
  unfold firstPair, pairs.
  induction entries as [|[category items] rest IH]; simpl; [reflexivity|].
  rewrite find_append, scanItems_find.
  destruct (find _ (map (pair category) items)); simpl; [reflexivity|exact IH].
Qed.

Lemma scanCategories_first (before after : list (string * list string))
      (category : string) (items : list string) (item : string) :
  (forall c its i, In (c, its) before -> In i its -> hit t i = false) ->
  In item items -> hit t item = true ->
  scanCategories t (before ++ (category, items) :: after) = Some (classify category t).
Proof.
  intros Hbefore Hin Hhit.
  induction before as [|[c its] before IH]; simpl.
  - rewrite (scanItems_hit category items item Hin Hhit). reflexivity.
  - assert (E : scanItems t c its = None).
    { apply scanItems_none. intros i Hi. apply (Hbefore c its i); simpl; auto. }
    rewrite E. apply IH. intros c' its' i Hc Hi.
    apply (Hbefore c' its' i); simpl; auto.
Qed.

End MatcherFacts.

Section CaseFacts.

Lemma toLowerCase_app (a b : string) :
  toLowerCase (a ++ b) = toLowerCase a ++ toLowerCase b.
Proof.
  induction a as [|c a IH]; simpl; [reflexivity|]. now rewrite IH.
Qed.

(** Upper-casing then lower-casing a character other than U+00DF gives its
    lower-case form: a check of the 256 code units. *)
Lemma lower_upper_char (c : ascii) (u : string) :
  upperChar c = Some u -> (code c =? 223)%N = false ->
  toLowerCase u = String (lowerChar c) EmptyString.
Proof.
  destruct c as [[] [] [] [] [] [] [] []]; intros H1 H2;
    vm_compute in H1; vm_compute in H2;
    first [discriminate | injection H1 as <-; vm_compute; reflexivity].
Qed.

Lemma lower_upper (L U : string) :
  toUpperCase L = Some U -> sharpFree L = true -> toLowerCase U = toLowerCase L.
Proof.
  revert U. induction L as [|c L IH]; simpl; intros U HU Hs.
  - injection HU as <-. reflexivity.
  - destruct (upperChar c) as [u|] eqn:Ec; [|discriminate].
    destruct (toUpperCase L) as [r|] eqn:Er; [|discriminate].
    injection HU as <-. apply andb_true_iff in Hs. destruct Hs as [Hc Hs].
    apply negb_true_iff in Hc.
    rewrite toLowerCase_app, (lower_upper_char c u Ec Hc), (IH r eq_refl Hs).
    reflexivity.
Qed.

Lemma isAscii_upperChar (c : ascii) :
  (code c <? 128)%N = true ->
  (code c =? 223)%N = false /\ exists u, upperChar c = Some u.
Proof.
  destruct c as [[] [] [] [] [] [] [] []]; intros H; vm_compute in H;
    first [discriminate | split; [reflexivity | eexists; reflexivity]].
Qed.

Lemma isAscii_upper (L : string) :
  isAscii L = true -> sharpFree L = true /\ exists U, toUpperCase L = Some U.
Proof.
  induction L as [|c L IH]; simpl; intros H.
  - split; [reflexivity|]. now exists EmptyString.
  - apply andb_true_iff in H. destruct H as [Hc HL].
    destruct (isAscii_upperChar c Hc) as [Hs [u Hu]].
    destruct (IH HL) as [HsL [U HU]].
    rewrite Hs, Hu, HU. simpl. split; [exact HsL|]. now exists (u ++ U).
Qed.

End CaseFacts.

Section MatcherClaims.

(** The results the matcher can give on the lexicon of [mappings.js]. *)
Lemma mapToRecycleBucket_range (label : Label) (b : Bucket) :
  mapToRecycleBucket label = Some b ->
  b = mkBucket "Compost" "Onion" \/ b = mkBucket "Plastic" "Water Bottle" \/
  b = mkBucket "Landfill" "Glasses" \/ b = mkBucket "Landfill" "Pen".
Proof.
  unfold mapToRecycleBucket. intros H.
  apply scanCategories_some in H.
  destruct H as (category & items & item & Hc & Hi & _ & ->).
  unfold Mappings.materialMappings in Hc. simpl in Hc.
  destruct Hc as [E|[E|[E|[E|[E|[E|[]]]]]]]; injection E as <- <-;
    try (destruct Hi; fail).
  - left. reflexivity.
  - right. left. reflexivity.
  - right. right. unfold classify. simpl String.eqb. cbv iota.
    destruct (existsb _ eyewear); auto.
Qed.

(** C9.  Whatever the label, the matcher never answers with the paper, metal
    or glass category: those three pattern lists are empty in the lexicon, so
    a result that is not [null] has bucket Compost, Plastic or Landfill, and
    its display name is none of "Paper", "Metal Item", "Glass Item". *)
Theorem paper_metal_glass_unreachable :
  forall label : Label,
    Mappings.paper = [] /\ Mappings.metal = [] /\ Mappings.glass = [] /\
    match mapToRecycleBucket label with
    | None => True
    | Some b =>
        (bucket b = "Compost" \/ bucket b = "Plastic" \/ bucket b = "Landfill") /\
        bucket b <> "Paper / Cardboard" /\ bucket b <> "Metal" /\ bucket b <> "Glass" /\
        displayName b <> "Paper" /\ displayName b <> "Metal Item" /\
        displayName b <> "Glass Item"
    end.
Proof.
  intros label. repeat (split; [reflexivity|]).
  destruct (mapToRecycleBucket label) as [b|] eqn:E; [|exact I].
  apply mapToRecycleBucket_range in E.
  destruct E as [-> | [-> | [-> | ->]]]; simpl;
    repeat split; auto; discriminate.
Qed.

(** C10.  On an absent label the matcher does not throw: [null], [undefined]
    and the empty string are all read as the empty string, no pattern of the
    lexicon is empty, and the answer is [null]. *)
Theorem absent_label_gives_null :
  orEmpty JNull = "" /\ orEmpty JUndefined = "" /\ orEmpty (JStr "") = "" /\
  Forall (fun e => Forall (fun item => item <> "") (snd e)) Mappings.materialMappings /\
  mapToRecycleBucket JNull = None /\
  mapToRecycleBucket JUndefined = None /\
  mapToRecycleBucket (JStr "") = None.
Proof.
  repeat split; try reflexivity.
  repeat constructor; discriminate.
Qed.

(** Two labels on which the matcher departs from "a label that matches a
    pattern of a category gets that category, whatever its case".
    "drumstick" is a pattern of the landfill category, and the label
    "drumstick" is filed under Plastic: the plastic pattern "drum", declared
    earlier, is contained in it.  The label "gla", U+00DF, "es" is not
    recognised, and its upper-case form GLASSES is. *)
Lemma drumstick_and_sharp_s :
  ~ (forall (L category : string) (items : list string) (item : string),
        In (category, items) Mappings.materialMappings ->
        In item items ->
        hit (toLowerCase L) item = true ->
        exists b, mapToRecycleBucket (JStr L) = Some b /\
                  bucket b = bucket (classify category (toLowerCase L))) /\
  ~ (forall L U : string,
        toUpperCase L = Some U ->
        mapToRecycleBucket (JStr L) = mapToRecycleBucket (JStr U)).
Proof.
  split.
  - intros H.
    destruct (H "drumstick" "landfill" Mappings.landfill "drumstick") as [b [Hb Hc]].
    + simpl. auto 10.
    + unfold Mappings.landfill. simpl. auto 40.
    + reflexivity.
    + vm_compute in Hb. injection Hb as <-. vm_compute in Hc. discriminate.
  - intros H.
    specialize (H ("gla" ++ String (ascii_of_N 223) "es") "GLASSES" eq_refl).
    vm_compute in H. discriminate.
Qed.

(** C3, as the program has it.  The answer is that of the first (category,
    pattern) pair, in declaration order, whose lower-cased pattern the
    lower-cased label equals or contains, and [null] when there is no such
    pair; so a label that matches a pattern of a category gets that category
    when no pattern of a category declared before it matches.  For a label
    of characters U+0000..U+00FF that has an upper-case form in that range
    and no U+00DF, and so for every ASCII label, upper-casing the label does
    not change the answer. *)
Theorem first_pair_wins_case_insensitive :
  (forall L : string,
      mapToRecycleBucket (JStr L) =
      option_map (fun p => classify (fst p) (toLowerCase L))
                 (firstPair (toLowerCase L) Mappings.materialMappings)) /\
  (forall (L : string) before category items after item,
      Mappings.materialMappings = (before ++ (category, items) :: after)%list ->
      In item items ->
      hit (toLowerCase L) item = true ->
      (forall c its i, In (c, its) before -> In i its -> hit (toLowerCase L) i = false) ->
      mapToRecycleBucket (JStr L) = Some (classify category (toLowerCase L))) /\
  (forall L U : string,
      toUpperCase L = Some U -> sharpFree L = true ->
      mapToRecycleBucket (JStr U) = mapToRecycleBucket (JStr L)) /\
  (forall L : string,
      isAscii L = true ->
      exists U, toUpperCase L = Some U /\
                mapToRecycleBucket (JStr U) = mapToRecycleBucket (JStr L)).
Proof.
  assert (Hcase : forall L U : string,
             toUpperCase L = Some U -> sharpFree L = true ->
             mapToRecycleBucket (JStr U) = mapToRecycleBucket (JStr L)).
  { intros L U HU Hs. unfold mapToRecycleBucket. simpl orEmpty.
    now rewrite (lower_upper L U HU Hs). }
  split; [|split; [|split]].
  - intros L. apply scanCategories_find.
  - intros L before category items after item Hm Hin Hhit Hbefore.
    unfold mapToRecycleBucket. rewrite Hm.
    now apply scanCategories_first with (item := item).
  - exact Hcase.
  - intros L HL. destruct (isAscii_upper L HL) as [Hs [U HU]].
    exists U. split; [exact HU|]. now apply Hcase.
Qed.

Lemma first_pair_wins_case_insensitive_witness :
  mapToRecycleBucket (JStr "Drumstick") = Some (mkBucket "Plastic" "Water Bottle") /\
  mapToRecycleBucket (JStr "PEN") = mapToRecycleBucket (JStr "Pen").
Proof.
  split.
  - apply (proj1 (proj2 first_pair_wins_case_insensitive) "Drumstick"
             [("compost", Mappings.compost); ("paper", Mappings.paper);
              ("metal", Mappings.metal); ("glass", Mappings.glass)]
             "plastic" Mappings.plastic [("landfill", Mappings.landfill)] "drum").
    + reflexivity.
    + unfold Mappings.plastic. simpl. auto 40.
    + reflexivity.
    + intros c its i Hc Hi. simpl in Hc.
      destruct Hc as [E|[E|[E|[E|[]]]]]; injection E as <- <-;
        try (destruct Hi; fail).
      unfold Mappings.compost in Hi. simpl in Hi.
      repeat (destruct Hi as [<-|Hi]; [reflexivity|]). destruct Hi.
  - apply (proj1 (proj2 (proj2 first_pair_wins_case_insensitive)) "Pen" "PEN");
      reflexivity.
Defined.

End MatcherClaims.

(* ====================================================================== *)
(** * Temporal smoothing *)
(* ====================================================================== *)

Section HistoryFacts.

Lemma tl_skipn {A : Type} (k : nat) (l : list A) : tl (skipn k l) = skipn (S k) l.
Proof.
  revert l. induction k as [|k IH]; intros [|a l]; try reflexivity.
  change (tl (skipn k l) = skipn (S k) l). apply IH.
Qed.

Lemma lastn_length {A : Type} (n : nat) (l : list A) :
  List.length (lastn n l) = Nat.min n (List.length l).
Proof. unfold lastn. rewrite length_skipn. lia. Qed.

Lemma lastn_all {A : Type} (n : nat) (l : list A) :
  List.length l <= n -> lastn n l = l.
Proof.
  intros H. unfold lastn. replace (List.length l - n) with 0 by lia. reflexivity.
Qed.

Lemma lastn_app {A : Type} (n : nat) (older recent : list A) :
  List.length recent = n -> lastn n (older ++ recent)%list = recent.
Proof.
  intros H. unfold lastn. rewrite length_app.
  replace (List.length older + List.length recent - n) with (List.length older) by lia.
  rewrite skipn_app, skipn_all, Nat.sub_diag. reflexivity.
Qed.

Lemma pushHistory_room (history : list string) (name : string) :
  List.length history < HISTORY_SIZE ->
  pushHistory history name = (history ++ [name])%list.
Proof.
  intros H. unfold pushHistory. rewrite length_app. simpl List.length.
  destruct (Nat.ltb_spec HISTORY_SIZE (List.length history + 1)); [lia|reflexivity].
Qed.

Lemma pushHistory_full (history : list string) (name : string) :
  HISTORY_SIZE <= List.length history ->
  pushHistory history name = (tl history ++ [name])%list.
Proof.
  intros H. unfold pushHistory. rewrite length_app. simpl List.length.
  destruct (Nat.ltb_spec HISTORY_SIZE (List.length history + 1)); [|lia].
  destruct history; [simpl in H; unfold HISTORY_SIZE in H; lia|reflexivity].
Qed.

Lemma pushHistory_length (history : list string) (name : string) :
  List.length history <= HISTORY_SIZE ->
  List.length (pushHistory history name) <= HISTORY_SIZE.
Proof.
  intros H. destruct (Nat.lt_ge_cases (List.length history) HISTORY_SIZE) as [Hlt|Hge].
  - rewrite pushHistory_room by exact Hlt. rewrite length_app. simpl. lia.
  - rewrite pushHistory_full by exact Hge. rewrite length_app. simpl.
    unfold HISTORY_SIZE in *. destruct history; simpl in *; lia.
Qed.

Lemma pushHistory_lastn (l : list string) (name : string) :
  pushHistory (lastn HISTORY_SIZE l) name = lastn HISTORY_SIZE (l ++ [name])%list.
Proof.
  destruct (Nat.lt_ge_cases (List.length l) HISTORY_SIZE) as [Hlt|Hge].
  - rewrite (lastn_all _ l) by lia.
    rewrite pushHistory_room by exact Hlt.
    rewrite lastn_all; [reflexivity|]. rewrite length_app. simpl. lia.
  - rewrite pushHistory_full by (rewrite lastn_length; lia).
    unfold lastn. rewrite tl_skipn, length_app. simpl List.length.
    rewrite skipn_app. unfold HISTORY_SIZE in *.
    replace (List.length l + 1 - 5) with (S (List.length l - 5)) by lia.
    replace (S (List.length l - 5) - List.length l) with 0 by lia.
    reflexivity.
Qed.

Lemma observeAll_lastn (l names : list string) :
  observeAll (lastn HISTORY_SIZE l) names = lastn HISTORY_SIZE (l ++ names)%list.
Proof.
  revert l. induction names as [|name names IH]; intros l; simpl.
  - now rewrite app_nil_r.
  - rewrite pushHistory_lastn, IH, <- app_assoc. reflexivity.
Qed.

Lemma observeAll_nil (names : list string) :
  observeAll [] names = lastn HISTORY_SIZE names.
Proof. exact (observeAll_lastn [] names). Qed.

Lemma observeAll_length (history names : list string) :
  List.length history <= HISTORY_SIZE ->
  List.length (observeAll history names) <= HISTORY_SIZE.
Proof.
  revert history. induction names as [|name names IH]; intros history H; simpl.
  - exact H.
  - apply IH, pushHistory_length, H.
Qed.

Lemma pushHistory_In (history : list string) (name s : string) :
  In s (pushHistory history name) -> In s history \/ s = name.
Proof.
  unfold pushHistory. intros H.
  assert (Hin : In s (history ++ [name])%list).
  { destruct (HISTORY_SIZE <? _)%nat; [|exact H].
    destruct (history ++ [name])%list; [destruct H|]. simpl in *. auto. }
  apply in_app_or in Hin. destruct Hin as [Hin|[<-|[]]]; auto.
Qed.

End HistoryFacts.

Section TallyFacts.

Lemma get_bump (freq : Freq) (item key : string) :
  get (bump freq item) key =
  if item =? key then get freq key + 1 else get freq key.
Proof.
  induction freq as [|[k n] rest IH]; simpl.
  - destruct (item =? key); reflexivity.
  - destruct (String.eqb_spec k item) as [->|Hki]; simpl.
    + destruct (item =? key); reflexivity.
    + destruct (String.eqb_spec k key) as [->|Hkk].
      * destruct (String.eqb_spec item key) as [->|_]; [congruence|reflexivity].
      * exact IH.
Qed.

Lemma get_fold_bump (arr : list string) (freq : Freq) (key : string) :
  get (fold_left bump arr freq) key = get freq key + count_occ string_dec arr key.
Proof.
  revert freq. induction arr as [|item arr IH]; intros freq; simpl; [lia|].
  rewrite IH, get_bump.
  destruct (string_dec item key) as [->|Hne].
  - rewrite String.eqb_refl. lia.
  - destruct (String.eqb_spec item key); [contradiction|lia].
Qed.

Lemma get_tally (arr : list string) (key : string) :
  get (tally arr) key = count_occ string_dec arr key.
Proof. unfold tally. now rewrite get_fold_bump. Qed.

Lemma bump_keys (freq : Freq) (item key : string) :
  In key (map fst (bump freq item)) <-> key = item \/ In key (map fst freq).
Proof.
  induction freq as [|[k n] rest IH]; simpl.
  - intuition.
  - destruct (String.eqb_spec k item) as [->|Hne]; simpl.
    + intuition.
    + rewrite IH. intuition.
Qed.

Lemma bump_NoDup (freq : Freq) (item : string) :
  NoDup (map fst freq) -> NoDup (map fst (bump freq item)).
Proof.
  induction freq as [|[k n] rest IH]; simpl; intros H.
  - constructor; [intros []|constructor].
  - inversion_clear H as [|? ? Hk Hrest].
    destruct (String.eqb_spec k item) as [->|Hne]; simpl.
    + constructor; assumption.
    + constructor; [|apply IH, Hrest].
      rewrite bump_keys. intros [E|E]; [congruence|contradiction].
Qed.

Lemma tally_NoDup (arr : list string) : NoDup (map fst (tally arr)).
Proof.
  unfold tally. assert (H : NoDup (map fst (@nil (string * nat)))) by constructor.
  revert H. generalize (@nil (string * nat)).
  induction arr as [|item arr IH]; intros freq H; simpl; [exact H|].
  apply IH, bump_NoDup, H.
Qed.

Lemma get_In (freq : Freq) (key : string) (n : nat) :
  NoDup (map fst freq) -> In (key, n) freq -> get freq key = n.
Proof.
  induction freq as [|[k m] rest IH]; simpl; intros Hnd Hin; [contradiction|].
  inversion_clear Hnd as [|? ? Hk Hrest].
  destruct Hin as [E|Hin].
  - injection E as -> ->. now rewrite String.eqb_refl.
  - destruct (String.eqb_spec k key) as [->|_]; [|auto].
    exfalso. apply Hk. change key with (fst (key, n)). now apply in_map.
Qed.

Lemma In_get (freq : Freq) (key : string) :
  0 < get freq key -> In (key, get freq key) freq.
Proof.
  induction freq as [|[k m] rest IH]; simpl; intros H; [lia|].
  destruct (String.eqb_spec k key) as [->|_]; auto.
Qed.

Lemma tally_nonempty (arr : list string) : arr <> [] -> tally arr <> [].
Proof.
  intros Harr Ht. destruct arr as [|item arr]; [congruence|].
  assert (E : get (tally (item :: arr)) item = 0) by (rewrite Ht; reflexivity).
  rewrite get_tally in E. simpl in E.
  destruct (string_dec item item); [discriminate|contradiction].
Qed.

Lemma insertDesc_In (e x : string * nat) (sorted : Freq) :
  In x (insertDesc e sorted) <-> x = e \/ In x sorted.
Proof.
  induction sorted as [|e' rest IH]; simpl.
  - intuition.
  - destruct (snd e <? snd e')%nat; simpl; [rewrite IH|]; intuition.
Qed.

Lemma sortDesc_In (x : string * nat) (entries : Freq) :
  In x (sortDesc entries) <-> In x entries.
Proof.
  induction entries as [|e rest IH]; simpl; [tauto|].
  rewrite insertDesc_In, IH. intuition.
Qed.

Lemma insertDesc_head (e : string * nat) (sorted : Freq) :
  (forall first rest, sorted = first :: rest ->
                      forall x, In x sorted -> snd x <= snd first) ->
  forall first rest, insertDesc e sorted = first :: rest ->
                     forall x, In x (insertDesc e sorted) -> snd x <= snd first.
Proof.
  intros Hs first rest E x Hx.
  destruct sorted as [|e' sorted']; simpl in *.
  - injection E as <- <-. destruct Hx as [<-|[]]. lia.
  - specialize (Hs e' sorted' eq_refl).
    destruct (Nat.ltb_spec (snd e) (snd e')) as [Hlt|Hge].
    + injection E as <- <-. destruct Hx as [<-|Hx]; [lia|].
      apply insertDesc_In in Hx. destruct Hx as [->|Hx]; [lia|].
      apply Hs. auto.
    + injection E as <- <-. destruct Hx as [<-|Hx]; [lia|].
      specialize (Hs x Hx). lia.
Qed.

Lemma sortDesc_head (entries : Freq) (first : string * nat) (rest : Freq) :
  sortDesc entries = first :: rest ->
  In first entries /\ forall x, In x entries -> snd x <= snd first.
Proof.
  intros E. split.
  - apply sortDesc_In. rewrite E. simpl. auto.
  - assert (H : forall f r, sortDesc entries = f :: r ->
                      forall x, In x (sortDesc entries) -> snd x <= snd f).
    { clear. induction entries as [|e entries IH]; simpl; [discriminate|].
      apply insertDesc_head, IH. }
    intros x Hx. apply (H first rest E). now apply sortDesc_In.
Qed.

(** What [getMostFrequent] returns on a non-empty array: a name of the array
    with its number of occurrences, and no name occurs more often. *)
Lemma getMostFrequent_spec (arr : list string) :
  arr <> [] ->
  exists name n,
    getMostFrequent arr = (Some name, n) /\
    In name arr /\ n = count_occ string_dec arr name /\
    forall key, count_occ string_dec arr key <= n.
Proof.
  intros Harr. unfold getMostFrequent.
  destruct arr as [|a arr']; [congruence|]. set (arr := a :: arr') in *.
  destruct (sortDesc (tally arr)) as [|[name n] rest] eqn:E.
  - exfalso. apply (tally_nonempty arr Harr).
    destruct (tally arr) as [|e es] eqn:Et; [reflexivity|].
    assert (Hin : In e (sortDesc (e :: es))) by (apply sortDesc_In; simpl; auto).
    rewrite E in Hin. destruct Hin.
  - apply sortDesc_head in E. destruct E as [Hin Hmax].
    assert (Hn : n = count_occ string_dec arr name).
    { rewrite <- get_tally. symmetry. apply get_In; [apply tally_NoDup|exact Hin]. }
    assert (Hall : forall key, count_occ string_dec arr key <= n).
    { intros key. destruct (Nat.eq_0_gt_0_cases (count_occ string_dec arr key)) as [->|Hpos]; [lia|].
      rewrite <- get_tally in Hpos. apply In_get in Hpos.
      specialize (Hmax _ Hpos). simpl in Hmax. now rewrite get_tally in Hmax. }
    exists name, n. repeat split; auto.
    apply (count_occ_In string_dec). specialize (Hall a). simpl in Hall.
    destruct (string_dec a a); [lia|contradiction].
Qed.

Lemma confirmed_true (history : list string) (name : string) :
  Forall (fun s => s <> "") history ->
  MIN_FREQUENCY <= count_occ string_dec history name ->
  confirmed history = true.
Proof.
  intros Hne Hcount.
  assert (Harr : history <> []).
  { intros ->. simpl in Hcount. unfold MIN_FREQUENCY in Hcount. lia. }
  destruct (getMostFrequent_spec history Harr) as (top & n & E & Hin & Hn & Hmax).
  unfold confirmed. rewrite E. apply andb_true_iff. split.
  - apply Nat.leb_le. specialize (Hmax name). lia.
  - simpl. apply negb_true_iff. apply String.eqb_neq.
    rewrite Forall_forall in Hne. now apply Hne.
Qed.

Lemma confirmed_false (history : list string) :
  NoDup history -> confirmed history = false.
Proof.
  intros Hnd. unfold confirmed.
  destruct history as [|a history']; [reflexivity|].
  destruct (getMostFrequent_spec (a :: history')) as (top & n & E & Hin & Hn & Hmax);
    [discriminate|].
  rewrite E. apply andb_false_iff. left. apply Nat.leb_gt.
  rewrite (NoDup_count_occ string_dec) in Hnd. specialize (Hnd top).
  unfold MIN_FREQUENCY. lia.
Qed.

End TallyFacts.

(* ====================================================================== *)
(** * Scoring *)
(* ====================================================================== *)

Section ScoringFacts.
Local Open Scope R_scope.

Lemma Rltb_true (x y : R) : Rltb x y = true <-> x < y.
Proof. unfold Rltb. destruct (Rlt_dec x y); split; auto; discriminate. Qed.

Lemma Rltb_false (x y : R) : Rltb x y = false <-> y <= x.
Proof.
  unfold Rltb. destruct (Rlt_dec x y); split; auto; try discriminate; lra.
Qed.

Lemma Rleb_true (x y : R) : Rleb x y = true <-> x <= y.
Proof. unfold Rleb. destruct (Rle_dec x y); split; auto; discriminate. Qed.

Lemma Rleb_false (x y : R) : Rleb x y = false <-> y < x.
Proof.
  unfold Rleb. destruct (Rle_dec x y); split; auto; try discriminate; lra.
Qed.

Lemma Math_round_eq (x : R) (z : Z) :
  IZR z <= x + / 2 < IZR z + 1 -> Math_round x = z.
Proof. apply Zfloor_eq. Qed.

Lemma Math_round_nonneg (x : R) : 0 <= x -> (0 <= Math_round x)%Z.
Proof. intros H. apply Zfloor_lub. simpl. lra. Qed.

Lemma tier_of_percent (score : R) :
  let m := updateConfidence score in
  (tier m = low <-> (percent m < 40)%Z) /\
  (tier m = medium <-> (40 <= percent m < 70)%Z) /\
  (tier m = high <-> (70 <= percent m)%Z).
Proof.
  unfold updateConfidence. simpl.
  set (p := Z.min _ 100).
  destruct (Z.ltb_spec p 40); [|destruct (Z.ltb_spec p 70)];
    repeat split; intros; try discriminate; try lia; reflexivity.
Qed.

Lemma updateConfidence_at (score : R) (z : Z) :
  0 <= score -> 3 * score <= 1 -> (z <= 100)%Z ->
  IZR z <= 300 * score + / 2 < IZR z + 1 ->
  updateConfidence score =
  mkMeter z (if (z <? 40)%Z then low else if (z <? 70)%Z then medium else high).
Proof.
  intros H0 H1 Hz Hr. unfold updateConfidence.
  rewrite Rmin_left by lra.
  rewrite (Math_round_eq (score * 3 * 100) z) by lra.
  rewrite Z.min_l by exact Hz. reflexivity.
Qed.

End ScoringFacts.

(** Decides the comparisons of numerals that a goal contains. *)
Ltac compare_numerals :=
  repeat match goal with
         | |- context [Rltb ?x ?y] =>
             first [ rewrite (proj2 (Rltb_true x y)) by lra
                   | rewrite (proj2 (Rltb_false x y)) by lra ]
         | |- context [Rleb ?x ?y] =>
             first [ rewrite (proj2 (Rleb_true x y)) by lra
                   | rewrite (proj2 (Rleb_false x y)) by lra ]
         end.

(** Rewrites [updateConfidence score] to the meter of [z] percent. *)
Ltac meter_at z :=
  rewrite (updateConfidence_at _ z) by (simpl; first [lra | lia]).

Section Centering.
Local Open Scope R_scope.

Variable c : Canvas.
Hypothesis width_pos : 0 < width c.
Hypothesis height_pos : 0 < height c.

Lemma centerDist_centred (w h : R) :
  centerDist c ((width c - w) / 2, (height c - h) / 2, w, h) = 0.
Proof.
  unfold centerDist.
  replace (((width c - w) / 2 + w / 2 - width c / 2) / (width c / 2)) with 0
    by (field; lra).
  replace (((height c - h) / 2 + h / 2 - height c / 2) / (height c / 2)) with 0
    by (field; lra).
  replace (0 * 0 + 0 * 0) with 0 by ring.
  rewrite sqrt_0. unfold Rdiv. ring.
Qed.

Lemma centerDist_corner (cornerX cornerY w h : R) :
  cornerX = 0 \/ cornerX = width c ->
  cornerY = 0 \/ cornerY = height c ->
  centerDist c (cornerX - w / 2, cornerY - h / 2, w, h) = 1.
Proof.
  intros HX HY. unfold centerDist.
  set (dx := (cornerX - w / 2 + w / 2 - width c / 2) / (width c / 2)).
  set (dy := (cornerY - h / 2 + h / 2 - height c / 2) / (height c / 2)).
  assert (Ex : dx * dx = 1).
  { unfold dx. destruct HX as [-> | ->]; field; lra. }
  assert (Ey : dy * dy = 1).
  { unfold dy. destruct HY as [-> | ->]; field; lra. }
  rewrite Ex, Ey. replace (1 + 1) with 2 by ring.
  unfold Rdiv. apply Rinv_r.
  assert (0 < sqrt 2) by (apply sqrt_lt_R0; lra). lra.
Qed.

(** The score of a box of a given share of the frame, at a given distance
    from the centre, when the share is within the size bounds. *)
Lemma score_of_share (bbox : BBox) (score share dist : R) :
  sizeRatio c bbox = share -> centerDist c bbox = dist ->
  0.02 <= share <= 0.85 ->
  validateAndScoreDetection c bbox score =
  Some (Rmin (score * (1 + (1 - dist) * 0.2
                       + (if Rleb 0.1 share && Rleb share 0.5 then 0.1 else 0)))
             1.0).
Proof.
  intros Hs Hd Hb. unfold validateAndScoreDetection. rewrite Hs, Hd.
  rewrite (proj2 (Rltb_false share 0.02)) by lra.
  rewrite (proj2 (Rltb_false 0.85 share)) by lra.
  reflexivity.
Qed.

End Centering.


Section ScoringClaims.
Local Open Scope R_scope.

(** C8.  On a canvas of positive size, with a raw score of 0.5 and a box
    that covers 0.3 of the frame, the box centred on the frame scores 0.65
    and the same box centred on any corner of the frame scores 0.55: the
    centred one is strictly higher. *)
Theorem centred_beats_corner :
  forall (c : Canvas) (w h cornerX cornerY : R),
    0 < width c -> 0 < height c ->
    (w * h) / (width c * height c) = 0.3 ->
    cornerX = 0 \/ cornerX = width c ->
    cornerY = 0 \/ cornerY = height c ->
    let centred := ((width c - w) / 2, (height c - h) / 2, w, h) in
    let corner := (cornerX - w / 2, cornerY - h / 2, w, h) in
    exists sCentred sCorner,
      validateAndScoreDetection c centred 0.5 = Some sCentred /\
      validateAndScoreDetection c corner 0.5 = Some sCorner /\
      sCentred = 0.65 /\ sCorner = 0.55 /\ sCorner < sCentred.
Proof.
  intros c w h cornerX cornerY HW HH Hr HX HY centred corner.
  exists 0.65, 0.55. repeat split; try lra.
  - rewrite (score_of_share c centred 0.5 0.3 0) by
      (try (apply centerDist_centred; assumption); try exact Hr; lra).
    compare_numerals. simpl. f_equal. rewrite Rmin_left; lra.
  - rewrite (score_of_share c corner 0.5 0.3 1) by
      (try (apply centerDist_corner; assumption); try exact Hr; lra).
    compare_numerals. simpl. f_equal. rewrite Rmin_left; lra.
Qed.

Lemma centred_beats_corner_witness :
  exists sCentred sCorner,
    validateAndScoreDetection (mkCanvas 10 10) (2, 5 / 2, 6, 5) 0.5 = Some sCentred /\
    validateAndScoreDetection (mkCanvas 10 10) (-3, -5 / 2, 6, 5) 0.5 = Some sCorner /\
    sCorner < sCentred.
Proof.
  assert (HW : 0 < width (mkCanvas 10 10)) by (simpl; lra).
  assert (HH : 0 < height (mkCanvas 10 10)) by (simpl; lra).
  assert (Hr : (6 * 5) / (width (mkCanvas 10 10) * height (mkCanvas 10 10)) = 0.3)
    by (simpl; lra).
  destruct (centred_beats_corner (mkCanvas 10 10) 6 5 0 0 HW HH Hr
              (or_introl eq_refl) (or_introl eq_refl))
    as (sc & sk & Hc & Hk & _ & _ & Hlt).
  exists sc, sk. simpl in Hc, Hk.
  replace ((10 - 6) / 2) with 2 in Hc by lra.
  replace ((10 - 5) / 2) with (5 / 2) in Hc by lra.
  replace (0 - 6 / 2) with (-3) in Hk by lra.
  replace (0 - 5 / 2) with (-5 / 2) in Hk by lra.
  auto.
Defined.

End ScoringClaims.

(* ====================================================================== *)
(** * The detection loop *)
(* ====================================================================== *)

Section LoopFacts.
Local Open Scope R_scope.

(** A prediction the loop does not accept: the matcher does not know its
    label, or its probability is not above 0.05. *)
Lemma firstAccepted_none (preds : list Prediction) :
  firstAccepted preds = None <->
  forall q, In q preds ->
            mapToRecycleBucket (JStr (className q)) = None \/ probability q <= 0.05.
Proof.
  induction preds as [|pred rest IH]; simpl.
  - split; [intros _ q []|reflexivity].
  - destruct (mapToRecycleBucket (JStr (className pred))) as [result|] eqn:Em.
    + destruct (Rltb 0.05 (probability pred)) eqn:Ep.
      * split; [discriminate|]. intros H. apply Rltb_true in Ep.
        destruct (H pred (or_introl eq_refl)) as [E|E]; [congruence|lra].
      * apply Rltb_false in Ep. rewrite IH. split.
        -- intros H q [<-|Hq]; auto.
        -- intros H q Hq. apply H. auto.
    + rewrite IH. split.
      * intros H q [<-|Hq]; auto.
      * intros H q Hq. apply H. auto.
Qed.

Lemma firstAccepted_some (preds : list Prediction) (pred : Prediction) (result : Bucket) :
  firstAccepted preds = Some (pred, result) <->
  exists before after,
    preds = (before ++ pred :: after)%list /\
    firstAccepted before = None /\
    mapToRecycleBucket (JStr (className pred)) = Some result /\
    0.05 < probability pred.
Proof.
  induction preds as [|p rest IH]; simpl.
  - split; [discriminate|]. intros (before & after & E & _).
    destruct before; discriminate.
  - split.
    + destruct (mapToRecycleBucket (JStr (className p))) as [r|] eqn:Em;
        [destruct (Rltb 0.05 (probability p)) eqn:Ep|].
      * intros [= <- <-]. apply Rltb_true in Ep. exists [], rest. auto.
      * intros H. apply IH in H. destruct H as (before & after & -> & Hb & Hm & Hp).
        exists (p :: before), after. simpl. rewrite Em, Ep. auto.
      * intros H. apply IH in H. destruct H as (before & after & -> & Hb & Hm & Hp).
        exists (p :: before), after. simpl. rewrite Em. auto.
    + intros (before & after & E & Hb & Hm & Hp).
      destruct before as [|b before]; simpl in E; injection E as -> ->.
      * rewrite Hm. apply Rltb_true in Hp. now rewrite Hp.
      * simpl in Hb.
        destruct (mapToRecycleBucket (JStr (className b))) as [r|];
          [destruct (Rltb 0.05 (probability b)); [discriminate|]|];
          apply IH; exists before, after; auto.
Qed.

Lemma firstAccepted_exists (preds : list Prediction) (q : Prediction) :
  In q preds ->
  mapToRecycleBucket (JStr (className q)) <> None -> 0.05 < probability q ->
  exists pred result, firstAccepted preds = Some (pred, result).
Proof.
  intros Hin Hm Hp.
  destruct (firstAccepted preds) as [[pred result]|] eqn:E; [eauto|].
  rewrite firstAccepted_none in E. destruct (E q Hin); [contradiction|lra].
Qed.

Lemma displayName_clean (label : Label) (b : Bucket) :
  mapToRecycleBucket label = Some b ->
  displayName b <> "" /\ cleanName (displayName b) = displayName b.
Proof.
  intros H. apply mapToRecycleBucket_range in H.
  destruct H as [-> | [-> | [-> | ->]]]; split; (discriminate || reflexivity).
Qed.

(** What [onMatch] leaves behind, field by field. *)
Lemma onMatch_fields (st : State) (pred : Prediction) (result : Bucket) :
  let st' := onMatch st pred result in
  let tipped :=
    if Rltb (probability pred) 0.15 then updateTip lowConfidence None (page st)
    else updateTip success (Some (displayName result)) (page st) in
  running st' = running st /\
  canvas st' = canvas st /\
  detectionHistory st' = pushHistory (detectionHistory st) (displayName result) /\
  noDetectionFrames st' = 0%nat /\
  lowConfidenceFrames st' = lowConfidenceFrames st /\
  meter (page st') = updateConfidence (probability pred) /\
  overlay (page st') =
    (let '(x, y, w, h) := defaultRegion (canvas st) in
     Circle x y w h (displayName result) (probability pred)) /\
  tipIcon (page st') = tipIcon tipped /\
  tipText (page st') = tipText tipped /\
  tipsBannerSuccess (page st') = tipsBannerSuccess tipped /\
  (confirmed (detectionHistory st') = true ->
   targetZoneDetected (page st') = true /\
   categoryValue (page st') = bucket result).
Proof.
  intros st' tipped. subst st' tipped. unfold onMatch, confirmed.
  destruct (defaultRegion (canvas st)) as [[[x y] w] h].
  destruct (getMostFrequent (pushHistory (detectionHistory st) (displayName result)))
    as [stable freq] eqn:Eg.
  destruct ((MIN_FREQUENCY <=? freq)%nat && truthy stable) eqn:Ec;
    destruct (Rltb (probability pred) 0.15);
    cbn -[updateConfidence pushHistory cleanName getMostFrequent Nat.leb];
    rewrite ?Eg;
    repeat split; try reflexivity; congruence.
Qed.

Lemma onNoMatch_fields (st : State) (topPred : Prediction) :
  let st' := onNoMatch st topPred in
  running st' = running st /\
  canvas st' = canvas st /\
  detectionHistory st' = detectionHistory st /\
  noDetectionFrames st' = S (noDetectionFrames st) /\
  lowConfidenceFrames st' = lowConfidenceFrames st /\
  categoryValue (page st') = "Scanning..." /\
  hudCategory (page st') = "unknown" /\
  categoryIcon (page st') = Magnifier /\
  detectionText (page st') = EmDash /\
  detectionDotInactive (page st') = true /\
  targetZoneDetected (page st') = false /\
  tipIcon (page st') = Magnifier /\
  tipText (page st') = "Seeing: " ++ className topPred /\
  meter (page st') = updateConfidence 0 /\
  overlay (page st') = Cleared.
Proof.
  unfold onNoMatch. cbn -[updateConfidence]. repeat split; reflexivity.
Qed.

Lemma updateConfidence_zero : updateConfidence 0 = mkMeter 0 low.
Proof. meter_at 0%Z. reflexivity. Qed.

Lemma loop_history (st : State) (ready : bool) (answer : Classified) :
  detectionHistory (loop st ready answer) = detectionHistory st \/
  exists name,
    detectionHistory (loop st ready answer) = pushHistory (detectionHistory st) name.
Proof.
  unfold loop. destruct (running st); simpl; auto.
  destruct ready; auto. destruct answer as [|predictions]; auto.
  unfold processPredictions. destruct predictions as [|topPred rest]; auto.
  destruct (firstAccepted _) as [[pred result]|].
  - right. exists (displayName result). apply onMatch_fields.
  - left. apply onNoMatch_fields.
Qed.

Lemma runFrames_history_length (st : State) (frames : list (bool * Classified)) :
  (List.length (detectionHistory st) <= HISTORY_SIZE)%nat ->
  (List.length (detectionHistory (runFrames st frames)) <= HISTORY_SIZE)%nat.
Proof.
  revert st. induction frames as [|[ready answer] frames IH]; intros st H; simpl.
  - exact H.
  - apply IH. simpl.
    destruct (loop_history st ready answer) as [-> | [name ->]];
      [exact H|apply pushHistory_length, H].
Qed.

Lemma loop_history_named (st : State) (ready : bool) (answer : Classified) :
  Forall (fun s => s <> "") (detectionHistory st) ->
  Forall (fun s => s <> "") (detectionHistory (loop st ready answer)).
Proof.
  intros H. unfold loop. destruct (running st); simpl; auto.
  destruct ready; auto. destruct answer as [|predictions]; auto.
  unfold processPredictions. destruct predictions as [|topPred rest]; auto.
  destruct (firstAccepted _) as [[pred result]|] eqn:E.
  - destruct (onMatch_fields st pred result) as (_ & _ & -> & _).
    apply firstAccepted_some in E. destruct E as (_ & _ & _ & _ & Hm & _).
    apply displayName_clean in Hm. destruct Hm as [Hne _].
    rewrite Forall_forall in *. intros s Hs.
    apply pushHistory_In in Hs. destruct Hs as [Hs | ->]; auto.
  - destruct (onNoMatch_fields st topPred) as (_ & _ & -> & _). exact H.
Qed.

Lemma runFrames_history_named (st : State) (frames : list (bool * Classified)) :
  Forall (fun s => s <> "") (detectionHistory st) ->
  Forall (fun s => s <> "") (detectionHistory (runFrames st frames)).
Proof.
  revert st. induction frames as [|[ready answer] frames IH]; intros st H; simpl.
  - exact H.
  - apply IH, loop_history_named, H.
Qed.

End LoopFacts.

Section LoopSteps.
Local Open Scope R_scope.

Lemma loop_match (st : State) (predictions : list Prediction)
      (pred : Prediction) (result : Bucket) :
  running st = true ->
  firstAccepted (top3 predictions) = Some (pred, result) ->
  loop st true (Resolved predictions) = onMatch st pred result.
Proof.
  intros Hrun Hfirst. unfold loop, processPredictions. rewrite Hrun. simpl negb.
  cbv iota. destruct predictions as [|topPred rest]; [discriminate|].
  now rewrite Hfirst.
Qed.

Lemma loop_no_match (st : State) (topPred : Prediction) (rest : list Prediction) :
  running st = true ->
  firstAccepted (top3 (topPred :: rest)) = None ->
  loop st true (Resolved (topPred :: rest)) = onNoMatch st topPred.
Proof.
  intros Hrun Hfirst. unfold loop, processPredictions. rewrite Hrun. simpl negb.
  cbv iota. now rewrite Hfirst.
Qed.

Lemma tip_of_match (p : Page) (score : R) (b : Bucket) (label : Label) :
  mapToRecycleBucket label = Some b ->
  let tipped :=
    if Rltb score 0.15 then updateTip lowConfidence None p
    else updateTip success (Some (displayName b)) p in
  (score < 0.15 ->
   tipIcon tipped = icon (tips lowConfidence) /\
   tipText tipped = text (tips lowConfidence) /\
   tipsBannerSuccess tipped = false) /\
  (0.15 <= score ->
   tipIcon tipped = icon (tips success) /\
   tipText tipped = "Detected: " ++ displayName b /\
   tipsBannerSuccess tipped = true).
Proof.
  intros Hm tipped. subst tipped.
  destruct (displayName_clean label b Hm) as [Hne Hclean].
  destruct (Rltb score 0.15) eqn:E.
  - apply Rltb_true in E. split; [|intros; lra].
    intros _. repeat split; reflexivity.
  - apply Rltb_false in E. split; [intros; lra|].
    intros _. unfold updateTip. simpl isSuccess. simpl truthy.
    apply String.eqb_neq in Hne. rewrite Hne, Hclean. repeat split; reflexivity.
Qed.

End LoopSteps.

Section LoopClaims.
Local Open Scope R_scope.

(** On a 1280 x 720 canvas, a frame whose one prediction is "water bottle" at
    0.2: scoring the loop's default region with that probability gives 0.26,
    which the meter would show as 78 High, and the meter shows 60 Medium, the
    raw probability. *)
Lemma meter_shows_raw_probability :
  let st' := loop startState true (Resolved [mkPrediction "water bottle" 0.2]) in
  validateAndScoreDetection (canvas startState) (defaultRegion (canvas startState)) 0.2
    = Some 0.26 /\
  updateConfidence 0.26 = mkMeter 78 high /\
  meter (page st') = mkMeter 60 medium /\
  meter (page st') <> updateConfidence 0.26.
Proof.
  assert (E78 : updateConfidence 0.26 = mkMeter 78 high)
    by (meter_at 78%Z; reflexivity).
  assert (E60 : updateConfidence 0.2 = mkMeter 60 medium)
    by (meter_at 60%Z; reflexivity).
  assert (Em : meter (page (loop startState true
                  (Resolved [mkPrediction "water bottle" 0.2]))) = mkMeter 60 medium).
  { rewrite (loop_match startState _ (mkPrediction "water bottle" 0.2)
               (mkBucket "Plastic" "Water Bottle")).
    - destruct (onMatch_fields startState (mkPrediction "water bottle" 0.2)
                  (mkBucket "Plastic" "Water Bottle")) as (_ & _ & _ & _ & _ & H & _).
      rewrite H. exact E60.
    - reflexivity.
    - apply firstAccepted_some. exists [], []. repeat split; simpl; lra. }
  intros st'. subst st'. repeat split.
  - rewrite (score_of_share _ _ 0.2 0.275625 0).
    + compare_numerals. simpl. f_equal. rewrite Rmin_left; lra.
    + unfold sizeRatio, defaultRegion. simpl.
      rewrite (Rmin_right 1280 720) by lra. lra.
    + apply centerDist_centred; simpl; lra.
    + lra.
  - exact E78.
  - exact Em.
  - rewrite Em, E78. discriminate.
Qed.

(** C1, as the program has it.  With the loop running and some prediction
    among the first three recognised by the matcher at a probability above
    0.05, the turn acts on the first such prediction and on no later one: it
    appends its display name to the history, sets the count of frames without
    detection to 0, draws the default region with that name, sets the meter
    from the raw probability, and shows the lowConfidence tip when the
    probability is below 0.15 and the success tip with the name otherwise.
    [validateAndScoreDetection] is not called. *)
Theorem first_accepted_prediction_is_shown :
  forall (st : State) (predictions : list Prediction) (q : Prediction),
    running st = true ->
    In q (top3 predictions) ->
    mapToRecycleBucket (JStr (className q)) <> None ->
    0.05 < probability q ->
    exists before pred after result,
      top3 predictions = (before ++ pred :: after)%list /\
      (forall p, In p before ->
                 mapToRecycleBucket (JStr (className p)) = None \/
                 probability p <= 0.05) /\
      mapToRecycleBucket (JStr (className pred)) = Some result /\
      0.05 < probability pred /\
      let st' := loop st true (Resolved predictions) in
      st' = onMatch st pred result /\
      detectionHistory st' = pushHistory (detectionHistory st) (displayName result) /\
      noDetectionFrames st' = 0%nat /\
      meter (page st') = updateConfidence (probability pred) /\
      overlay (page st') =
        (let '(x, y, w, h) := defaultRegion (canvas st) in
         Circle x y w h (displayName result) (probability pred)) /\
      (probability pred < 0.15 ->
       tipIcon (page st') = icon (tips lowConfidence) /\
       tipText (page st') = text (tips lowConfidence) /\
       tipsBannerSuccess (page st') = false) /\
      (0.15 <= probability pred ->
       tipIcon (page st') = icon (tips success) /\
       tipText (page st') = "Detected: " ++ displayName result /\
       tipsBannerSuccess (page st') = true).
Proof.
  intros st predictions q Hrun Hin Hm Hp.
  destruct (firstAccepted_exists _ q Hin Hm Hp) as (pred & result & Hfirst).
  pose proof Hfirst as Hsplit. apply firstAccepted_some in Hsplit.
  destruct Hsplit as (before & after & Htop & Hbefore & Hres & Hprob).
  exists before, pred, after, result.
  split; [exact Htop|]. split; [now apply firstAccepted_none|].
  split; [exact Hres|]. split; [exact Hprob|].
  intros st'. subst st'. rewrite (loop_match st predictions pred result Hrun Hfirst).
  destruct (onMatch_fields st pred result)
    as (_ & _ & Hh & Hn & _ & Hmeter & Hov & Hi & Ht & Hb & _).
  destruct (tip_of_match (page st) (probability pred) result _ Hres) as [Hlow Hok].
  split; [reflexivity|]. split; [exact Hh|]. split; [exact Hn|].
  split; [exact Hmeter|]. split; [exact Hov|].
  rewrite Hi, Ht, Hb. split; assumption.
Qed.

Lemma first_accepted_prediction_is_shown_witness :
  exists pred result,
    loop startState true
         (Resolved [mkPrediction "car" 0.9; mkPrediction "water bottle" 0.2;
                    mkPrediction "pen" 0.5])
    = onMatch startState pred result /\
    className pred = "water bottle".
Proof.
  assert (Hrun : running startState = true) by reflexivity.
  assert (Hin : In (mkPrediction "water bottle" 0.2)
                   (top3 [mkPrediction "car" 0.9; mkPrediction "water bottle" 0.2;
                          mkPrediction "pen" 0.5])) by (simpl; auto).
  assert (Hm : mapToRecycleBucket (JStr (className (mkPrediction "water bottle" 0.2)))
               <> None) by (vm_compute; discriminate).
  assert (Hp : 0.05 < probability (mkPrediction "water bottle" 0.2)) by (simpl; lra).
  destruct (first_accepted_prediction_is_shown startState _ _ Hrun Hin Hm Hp)
    as (before & pred & after & result & Htop & Hbefore & Hres & Hprob & Hst & _).
  exists pred, result. split; [exact Hst|].
  destruct before as [|b before]; simpl in Htop.
  - injection Htop as <- _. simpl in Hres. vm_compute in Hres. discriminate.
  - injection Htop as <- Htop. destruct before as [|b' before]; simpl in Htop.
    + injection Htop as <- _. reflexivity.
    + injection Htop as <- Htop. exfalso.
      destruct (Hbefore (mkPrediction "water bottle" 0.2)) as [E|E].
      * simpl. auto.
      * vm_compute in E. discriminate.
      * simpl in E. lra.
Defined.

(** On the start state, a frame whose one prediction is "car" at 0.9 leaves
    the magnifier and "Seeing: car" in the tip banner, which is not the
    noObject tip. *)
Lemma unrecognised_frame_tip_is_not_noObject :
  let st' := loop startState true (Resolved [mkPrediction "car" 0.9]) in
  tipIcon (page st') = Magnifier /\
  tipText (page st') = "Seeing: car" /\
  tipIcon (page st') <> icon (tips noObject) /\
  tipText (page st') <> text (tips noObject).
Proof.
  intros st'. subst st'.
  rewrite loop_no_match by reflexivity.
  destruct (onNoMatch_fields startState (mkPrediction "car" 0.9))
    as (_ & _ & _ & _ & _ & _ & _ & _ & _ & _ & _ & Hi & Ht & _).
  rewrite Hi, Ht. repeat split; discriminate.
Qed.

(** C5, as the program has it.  With the loop running, a non-empty answer of
    the classifier and none of its first three predictions accepted (the
    matcher does not know the label, or the probability is not above 0.05),
    the turn leaves the history as it was, adds one to the count of frames
    without detection, puts the category display in its scanning state (no
    category), removes the detected mark, clears the overlay, empties the
    meter, and writes the magnifier and "Seeing: " followed by the label of
    the top prediction into the tip banner; no tip of the table is applied. *)
Theorem unrecognised_frame_shows_top_label :
  forall (st : State) (topPred : Prediction) (rest : list Prediction),
    running st = true ->
    (forall q, In q (top3 (topPred :: rest)) ->
               mapToRecycleBucket (JStr (className q)) = None \/
               probability q <= 0.05) ->
    let st' := loop st true (Resolved (topPred :: rest)) in
    detectionHistory st' = detectionHistory st /\
    noDetectionFrames st' = S (noDetectionFrames st) /\
    categoryValue (page st') = "Scanning..." /\
    hudCategory (page st') = "unknown" /\
    detectionText (page st') = EmDash /\
    targetZoneDetected (page st') = false /\
    tipIcon (page st') = Magnifier /\
    tipText (page st') = "Seeing: " ++ className topPred /\
    meter (page st') = mkMeter 0 low /\
    overlay (page st') = Cleared.
Proof.
  intros st topPred rest Hrun Hnone st'. subst st'.
  rewrite loop_no_match; [|exact Hrun|now apply firstAccepted_none].
  destruct (onNoMatch_fields st topPred)
    as (_ & _ & Hh & Hn & _ & Hc & Hk & _ & Hd & _ & Hz & Hi & Ht & Hm & Ho).
  rewrite updateConfidence_zero in Hm.
  repeat split; assumption.
Qed.

Lemma unrecognised_frame_shows_top_label_witness :
  let st' := loop startState true (Resolved [mkPrediction "car" 0.9]) in
  categoryValue (page st') = "Scanning..." /\
  targetZoneDetected (page st') = false /\
  tipText (page st') = "Seeing: car" /\
  detectionHistory st' = [] /\
  noDetectionFrames st' = 1%nat.
Proof.
  assert (Hrun : running startState = true) by reflexivity.
  assert (Hnone : forall q, In q (top3 [mkPrediction "car" 0.9]) ->
                            mapToRecycleBucket (JStr (className q)) = None \/
                            probability q <= 0.05).
  { intros q [<-|[]]. left. reflexivity. }
  destruct (unrecognised_frame_shows_top_label startState (mkPrediction "car" 0.9) []
              Hrun Hnone)
    as (Hh & Hn & Hc & _ & _ & Hz & _ & Ht & _).
  repeat split; assumption.
Defined.

End LoopClaims.

Section SmoothingClaims.

(** C4.  The history is a queue of at most five names, oldest first: a push
    onto five names drops exactly the oldest and a push onto fewer drops
    none; from the empty history the length is never above five, whatever the
    names pushed and whatever the frames the loop runs on; and after five or
    more pushes the history is the last five names pushed, so the most
    frequent name is computed from those alone. *)
Theorem history_is_fifo_of_five :
  (forall (history : list string) (name : string),
      List.length history = HISTORY_SIZE ->
      pushHistory history name = (tl history ++ [name])%list) /\
  (forall (history : list string) (name : string),
      List.length history < HISTORY_SIZE ->
      pushHistory history name = (history ++ [name])%list) /\
  (forall names : list string,
      List.length (observeAll [] names) <= HISTORY_SIZE) /\
  (forall (st : State) (frames : list (bool * Classified)),
      detectionHistory st = [] ->
      List.length (detectionHistory (runFrames st frames)) <= HISTORY_SIZE) /\
  (forall older recent : list string,
      List.length recent = HISTORY_SIZE ->
      observeAll [] (older ++ recent)%list = recent /\
      getMostFrequent (observeAll [] (older ++ recent)%list) = getMostFrequent recent).
Proof.
  repeat split.
  - intros history name H. apply pushHistory_full. lia.
  - intros history name H. now apply pushHistory_room.
  - intros names. apply observeAll_length. simpl. unfold HISTORY_SIZE. lia.
  - intros st frames H. apply runFrames_history_length. rewrite H. simpl.
    unfold HISTORY_SIZE. lia.
  - rewrite observeAll_nil. now apply lastn_app.
  - rewrite observeAll_nil, lastn_app by assumption. reflexivity.
Qed.

Lemma history_is_fifo_of_five_witness :
  pushHistory ["a"; "b"; "c"; "d"; "e"] "f" = ["b"; "c"; "d"; "e"; "f"] /\
  getMostFrequent (observeAll [] (["x"; "x"; "x"] ++ ["a"; "b"; "b"; "c"; "d"])%list)
  = getMostFrequent ["a"; "b"; "b"; "c"; "d"].
Proof.
  split.
  - exact (proj1 history_is_fifo_of_five ["a"; "b"; "c"; "d"; "e"] "f" eq_refl).
  - exact (proj2 (proj2 (proj2 (proj2 (proj2 history_is_fifo_of_five)))
                   ["x"; "x"; "x"] ["a"; "b"; "b"; "c"; "d"] eq_refl)).
Defined.

End SmoothingClaims.

(* ====================================================================== *)
(** * Checks of the model on concrete inputs *)
(* ====================================================================== *)

Section Checks.
Local Open Scope R_scope.

Example lower_granny : toLowerCase "Granny Smith" = "granny smith".
Proof. reflexivity. Qed.

Example includes_empty : includes "" "" = true /\ includes "" "a" = false.
Proof. split; reflexivity. Qed.

Example clean_name : cleanName "  reflex camera, SLR (film)" = "reflex camera".
Proof. reflexivity. Qed.

Example match_water_bottle :
  mapToRecycleBucket (JStr "water bottle") = Some (mkBucket "Plastic" "Water Bottle").
Proof. reflexivity. Qed.

Example match_granny_smith :
  mapToRecycleBucket (JStr "Granny Smith") = Some (mkBucket "Compost" "Onion").
Proof. reflexivity. Qed.

Example match_ballpoint :
  mapToRecycleBucket (JStr "ballpoint, ballpoint pen, ballpen, Biro")
  = Some (mkBucket "Landfill" "Pen").
Proof. reflexivity. Qed.

Example match_sunglasses :
  mapToRecycleBucket (JStr "sunglasses, dark glasses, shades")
  = Some (mkBucket "Landfill" "Glasses").
Proof. reflexivity. Qed.

Example match_unknown :
  mapToRecycleBucket (JStr "xyz-not-in-lexicon") = None /\
  mapToRecycleBucket (JStr "car") = None.
Proof. split; reflexivity. Qed.

Example push_six :
  observeAll [] ["a"; "b"; "c"; "d"; "e"; "f"] = ["b"; "c"; "d"; "e"; "f"].
Proof. reflexivity. Qed.

Example most_frequent_tie :
  getMostFrequent ["a"; "b"; "b"; "a"] = (Some "a", 2%nat) /\
  getMostFrequent ["a"; "b"; "b"] = (Some "b", 2%nat) /\
  getMostFrequent [] = (None, 0%nat).
Proof. repeat split; reflexivity. Qed.

(** Two frames of "water bottle" at 0.2 from the start: the first shows the
    success tip and leaves the target zone unmarked, the second marks it and
    shows the Plastic bucket with the name. *)
Example water_bottle_twice :
  let frame := (true, Resolved [mkPrediction "water bottle" 0.2]) in
  let once := page (runFrames startState [frame]) in
  let twice := page (runFrames startState [frame; frame]) in
  tipText once = "Detected: Water Bottle" /\
  targetZoneDetected once = false /\
  categoryValue once = "Scanning..." /\
  targetZoneDetected twice = true /\
  categoryValue twice = "Plastic" /\
  detectionText twice = Text "Water Bottle" /\
  meter twice = mkMeter 60 medium.
Proof.
  assert (Hfirst : firstAccepted (top3 [mkPrediction "water bottle" 0.2])
                   = Some (mkPrediction "water bottle" 0.2,
                           mkBucket "Plastic" "Water Bottle")).
  { apply firstAccepted_some. exists [], []. repeat split; simpl; lra. }
  intros frame once twice. subst frame once twice. simpl runFrames.
  rewrite (loop_match startState _ _ _ eq_refl Hfirst).
  set (st1 := onMatch startState _ _).
  assert (E1 : st1 = mkState true (mkCanvas 1280 720) ["Water Bottle"] 0 0
                 (mkPage Magnifier "unknown" "unknown" "Scanning..." EmDash true
                    CheckMark "Detected: Water Bottle" true
                    (updateConfidence 0.2) false
                    (let '(x, y, w, h) := defaultRegion (canvas startState) in
                     Circle x y w h "Water Bottle" 0.2))).
  { unfold st1, onMatch. destruct (defaultRegion (canvas startState)) as [[[x y] w] h].
    cbn -[updateConfidence Rltb]. compare_numerals. reflexivity. }
  rewrite E1. erewrite loop_match; [|reflexivity|exact Hfirst].
  unfold onMatch. destruct (defaultRegion _) as [[[x y] w] h].
  cbn -[updateConfidence Rltb]. compare_numerals.
  meter_at 60%Z. repeat split; reflexivity.
Qed.

End Checks.

(* ====================================================================== *)
(** * Further properties of the matcher *)
(* ====================================================================== *)

Section SubstringFacts.

Lemma prefix_refl (s : string) : prefix s s = true.
Proof.
  induction s as [|c s IH]; simpl; [reflexivity|].
  destruct (ascii_dec c c); [exact IH|contradiction].
Qed.

Lemma prefix_app (n h b : string) : prefix n h = true -> prefix n (h ++ b) = true.
Proof.
  revert h. induction n as [|c n IH]; intros h H; [destruct (h ++ b); reflexivity|].
  destruct h as [|d h]; simpl in *; [discriminate|].
  destruct (ascii_dec c d); [now apply IH|discriminate].
Qed.

Lemma includes_refl (s : string) : includes s s = true.
Proof.
  destruct s as [|c s]; [reflexivity|].
  change (prefix (String c s) (String c s) || includes s (String c s) = true).
  now rewrite prefix_refl.
Qed.

Lemma includes_app_r (h n b : string) :
  includes h n = true -> includes (h ++ b) n = true.
Proof.
  induction h as [|c h IH]; simpl; intros H.
  - rewrite orb_false_r in H. destruct n; [|discriminate].
    destruct b; reflexivity.
  - apply orb_true_iff in H. apply orb_true_iff. destruct H as [H|H].
    + left. exact (prefix_app n (String c h) b H).
    + right. now apply IH.
Qed.

Lemma includes_app_l (a h n : string) :
  includes h n = true -> includes (a ++ h) n = true.
Proof.
  intros H. induction a as [|c a IH]; simpl; [exact H|].
  rewrite IH. apply orb_true_r.
Qed.

Lemma hit_includes (t item : string) : hit t item = includes t (toLowerCase item).
Proof.
  unfold hit. destruct (String.eqb_spec t (toLowerCase item)) as [->|_].
  - now rewrite includes_refl.
  - reflexivity.
Qed.

Lemma scanCategories_none (t : string) (entries : list (string * list string)) :
  scanCategories t entries = None <->
  forall category items item,
    In (category, items) entries -> In item items -> hit t item = false.
Proof.
  induction entries as [|[c its] rest IH]; simpl.
  - split; [intros _ ? ? ? []|reflexivity].
  - destruct (scanItems t c its) as [b|] eqn:E.
    + split; [discriminate|]. intros H. exfalso.
      apply scanItems_some in E. destruct E as [_ [item [Hin Hhit]]].
      rewrite (H c its item) in Hhit; auto. discriminate.
    + rewrite scanItems_none in E. rewrite IH. split.
      * intros H category items item [Heq|Hin] Hitem.
        -- injection Heq as <- <-. now apply E.
        -- now apply (H category items).
      * intros H category items item Hin. apply (H category items). auto.
Qed.

Lemma lowerChar_idem (c : ascii) : lowerChar (lowerChar c) = lowerChar c.
Proof. destruct c as [[] [] [] [] [] [] [] []]; reflexivity. Qed.

Lemma toLowerCase_idem (s : string) : toLowerCase (toLowerCase s) = toLowerCase s.
Proof.
  induction s as [|c s IH]; simpl; [reflexivity|].
  now rewrite lowerChar_idem, IH.
Qed.

End SubstringFacts.

Section MatcherExtras.

(** X1.  The equality test of the matcher adds nothing to its substring
    test, and the matcher answers [null] exactly when the lower-cased label
    contains the lower-cased form of no pattern of the lexicon. *)
Theorem unrecognised_iff_no_pattern_contained :
  forall label : Label,
    let t := toLowerCase (orEmpty label) in
    (forall item, hit t item = includes t (toLowerCase item)) /\
    (mapToRecycleBucket label = None <->
     forall category items item,
       In (category, items) Mappings.materialMappings -> In item items ->
       includes t (toLowerCase item) = false).
Proof.
  intros label t. split; [intros item; apply hit_includes|].
  unfold mapToRecycleBucket. fold t. rewrite scanCategories_none.
  split; intros H category items item Hc Hi.
  - rewrite <- hit_includes. now apply (H category items).
  - rewrite hit_includes. now apply (H category items).
Qed.

(** X2.  Lower-casing a label beforehand does not change the matcher's
    answer, whatever the characters of the label. *)
Theorem lowercase_label_same_answer :
  forall label : Label,
    mapToRecycleBucket (JStr (toLowerCase (orEmpty label))) = mapToRecycleBucket label.
Proof.
  intros label. unfold mapToRecycleBucket. simpl orEmpty.
  now rewrite toLowerCase_idem.
Qed.

(** X3.  A label the matcher recognises stays recognised when text is put
    before and after it (the category may change, as an earlier pattern may
    then match). *)
Theorem recognised_label_stays_recognised :
  forall L before after : string,
    mapToRecycleBucket (JStr L) <> None ->
    mapToRecycleBucket (JStr (before ++ L ++ after)) <> None.
Proof.
  intros L before after H Hnone. apply H.
  unfold mapToRecycleBucket in *. simpl orEmpty in *.
  rewrite scanCategories_none in *.
  intros category items item Hc Hi.
  specialize (Hnone category items item Hc Hi).
  rewrite hit_includes in *. rewrite !toLowerCase_app in Hnone.
  destruct (includes (toLowerCase L) (toLowerCase item)) eqn:E; [|reflexivity].
  rewrite (includes_app_l _ _ _ (includes_app_r _ _ (toLowerCase after) E)) in Hnone.
  discriminate.
Qed.

Lemma recognised_label_stays_recognised_witness :
  mapToRecycleBucket (JStr ("ballpoint " ++ "pen" ++ ", Biro")) <> None.
Proof.
  apply (recognised_label_stays_recognised "pen" "ballpoint " ", Biro").
  vm_compute. discriminate.
Defined.

End MatcherExtras.

(* ====================================================================== *)
(** * The clean-up of shown names *)
(* ====================================================================== *)

Section CleanNameFacts.

Lemma includes_char (c : ascii) (s : string) :
  includes s (String c EmptyString) = true <-> In c (list_ascii_of_string s).
Proof.
  induction s as [|d s IH]; simpl.
  - split; [discriminate|intros []].
  - destruct (ascii_dec c d) as [->|Hne].
    + assert (E : prefix EmptyString s = true) by (destruct s; reflexivity).
      rewrite E. simpl. split; auto.
    + simpl. rewrite IH. split; [auto|]. intros [E|H]; [congruence|exact H].
Qed.

Lemma splitHead_sub (sep : ascii) (s : string) (c : ascii) :
  In c (list_ascii_of_string (splitHead sep s)) -> In c (list_ascii_of_string s).
Proof.
  induction s as [|d s IH]; simpl; [auto|].
  destruct (Ascii.eqb d sep); simpl; [intros []|]. intros [E|H]; auto.
Qed.

Lemma splitHead_no_sep (sep : ascii) (s : string) :
  ~ In sep (list_ascii_of_string (splitHead sep s)).
Proof.
  induction s as [|d s IH]; simpl; [auto|].
  destruct (Ascii.eqb_spec d sep) as [->|Hne]; simpl; [auto|].
  intros [E|H]; [congruence|contradiction].
Qed.

Lemma splitHead_fixed (sep : ascii) (s : string) :
  ~ In sep (list_ascii_of_string s) -> splitHead sep s = s.
Proof.
  induction s as [|d s IH]; simpl; intros H; [reflexivity|].
  destruct (Ascii.eqb_spec d sep) as [->|Hne]; [exfalso; auto|].
  rewrite IH; auto.
Qed.

Lemma trimStart_sub (s : string) (c : ascii) :
  In c (list_ascii_of_string (trimStart s)) -> In c (list_ascii_of_string s).
Proof.
  induction s as [|d s IH]; simpl; [auto|].
  destruct (isSpace d); simpl; auto.
Qed.

Lemma trimEnd_sub (s : string) (c : ascii) :
  In c (list_ascii_of_string (trimEnd s)) -> In c (list_ascii_of_string s).
Proof.
  induction s as [|d s IH]; simpl; [auto|].
  destruct (trimEnd s) as [|e r].
  - destruct (isSpace d); simpl; [intros []|]. intros [E|[]]. auto.
  - simpl in *. intros [E|H]; auto.
Qed.

(** A string starts clean when it is empty or its first character is not
    white space, and ends clean when its last character, if any, is not. *)
Lemma trimStart_head (s : string) :
  match trimStart s with
  | EmptyString => True
  | String c _ => isSpace c = false
  end.
Proof.
  induction s as [|d s IH]; simpl; [exact I|].
  destruct (isSpace d) eqn:E; [exact IH|exact E].
Qed.

Lemma trimEnd_head (s : string) :
  match s with
  | EmptyString => True
  | String c _ => isSpace c = false
  end ->
  match trimEnd s with
  | EmptyString => True
  | String c _ => isSpace c = false
  end.
Proof.
  destruct s as [|d s]; simpl; [auto|]. intros H.
  destruct (trimEnd s); [rewrite H|]; exact H.
Qed.

Lemma trimEnd_last (s r : string) (c : ascii) :
  trimEnd s = r ++ String c EmptyString -> isSpace c = false.
Proof.
  revert r. induction s as [|d s IH]; simpl; intros r H.
  - destruct r; discriminate.
  - destruct (trimEnd s) as [|e t].
    + destruct (isSpace d) eqn:E; [destruct r; discriminate|].
      destruct r as [|x r]; simpl in H.
      * injection H as <-. exact E.
      * injection H as _ H. destruct r; discriminate.
    + destruct r as [|x r]; simpl in H; [discriminate|].
      injection H as _ H. exact (IH r H).
Qed.

Lemma trimStart_fixed (s : string) :
  match s with
  | EmptyString => True
  | String c _ => isSpace c = false
  end -> trimStart s = s.
Proof. destruct s as [|d s]; simpl; [auto|]. intros ->. reflexivity. Qed.

Lemma trimEnd_fixed (s : string) :
  (forall r c, s = r ++ String c EmptyString -> isSpace c = false) ->
  trimEnd s = s.
Proof.
  induction s as [|d s IH]; simpl; intros H; [reflexivity|].
  rewrite IH.
  - destruct s as [|e t]; [|reflexivity].
    rewrite (H EmptyString d eq_refl). reflexivity.
  - intros r c E. apply (H (String d r) c). simpl. now rewrite E.
Qed.

End CleanNameFacts.

Section CleanNameExtras.

(** X4.  The name the page shows after its clean-up
    [split(",")[0].split("(")[0].trim()] contains no comma and no opening
    parenthesis, neither starts nor ends with white space, and is left
    unchanged by a second clean-up. *)
Theorem shown_name_is_clean :
  forall name : string,
    let shown := cleanName name in
    includes shown "," = false /\
    includes shown "(" = false /\
    match shown with
    | EmptyString => True
    | String c _ => isSpace c = false
    end /\
    (forall r c, shown = r ++ String c EmptyString -> isSpace c = false) /\
    cleanName shown = shown.
Proof.
  intros name shown.
  assert (Hcomma : ~ In ","%char (list_ascii_of_string shown)).
  { intros H. unfold shown, cleanName, trim in H.
    apply trimEnd_sub, trimStart_sub, splitHead_sub in H.
    exact (splitHead_no_sep _ _ H). }
  assert (Hparen : ~ In "("%char (list_ascii_of_string shown)).
  { intros H. unfold shown, cleanName, trim in H.
    apply trimEnd_sub, trimStart_sub in H.
    exact (splitHead_no_sep _ _ H). }
  assert (Hhead : match shown with
                  | EmptyString => True
                  | String c _ => isSpace c = false
                  end).
  { unfold shown, cleanName, trim. apply trimEnd_head, trimStart_head. }
  assert (Hlast : forall r c, shown = r ++ String c EmptyString -> isSpace c = false).
  { intros r c E. unfold shown, cleanName, trim in E. exact (trimEnd_last _ _ _ E). }
  repeat split.
  - destruct (includes shown ",") eqn:E; [|reflexivity].
    exfalso. apply Hcomma. now apply includes_char.
  - destruct (includes shown "(") eqn:E; [|reflexivity].
    exfalso. apply Hparen. now apply includes_char.
  - exact Hhead.
  - exact Hlast.
  - unfold cleanName at 1, trim.
    rewrite (splitHead_fixed "," shown Hcomma), (splitHead_fixed "(" shown Hparen).
    rewrite (trimStart_fixed shown Hhead). now apply trimEnd_fixed.
Qed.

End CleanNameExtras.

(* ====================================================================== *)
(** * Further properties of getMostFrequent *)
(* ====================================================================== *)

Section OrderFacts.

Lemma bump_keys_old (freq : Freq) (item : string) :
  In item (map fst freq) -> map fst (bump freq item) = map fst freq.
Proof.
  induction freq as [|[k n] rest IH]; simpl; intros H; [contradiction|].
  destruct (String.eqb_spec k item) as [->|Hne]; simpl; [reflexivity|].
  destruct H as [E|H]; [contradiction|]. now rewrite IH.
Qed.

Lemma bump_keys_new (freq : Freq) (item : string) :
  ~ In item (map fst freq) -> map fst (bump freq item) = (map fst freq ++ [item])%list.
Proof.
  induction freq as [|[k n] rest IH]; simpl; intros H; [reflexivity|].
  destruct (String.eqb_spec k item) as [->|Hne]; simpl; [exfalso; auto|].
  rewrite IH; auto.
Qed.

Lemma tally_snoc (arr : list string) (item : string) :
  tally (arr ++ [item]) = bump (tally arr) item.
Proof. unfold tally. now rewrite fold_left_app. Qed.

Lemma tally_keys_complete (arr : list string) (key : string) :
  In key arr -> In key (map fst (tally arr)).
Proof.
  intros H. apply (count_occ_In string_dec) in H. rewrite <- get_tally in H.
  apply In_get in H. change key with (fst (key, get (tally arr) key)).
  now apply in_map.
Qed.

(** The keys of the tally come in the order of their first occurrence:
    whatever occurs in the array before the first occurrence of a key is a
    key listed before it. *)
Lemma tally_keys_order (arr : list string) :
  forall K1 key K2,
    map fst (tally arr) = (K1 ++ key :: K2)%list ->
    exists pre post,
      arr = (pre ++ key :: post)%list /\ forall k, In k pre -> In k K1.
Proof.
  induction arr as [|item arr IH] using rev_ind; intros K1 key K2 H.
  - destruct K1; discriminate.
  - rewrite tally_snoc in H.
    destruct (in_dec string_dec item (map fst (tally arr))) as [Hold|Hnew].
    + rewrite bump_keys_old in H by exact Hold.
      destruct (IH K1 key K2 H) as (pre & post & -> & Hpre).
      exists pre, (post ++ [item])%list. split; [|exact Hpre].
      now rewrite <- app_assoc.
    + rewrite bump_keys_new in H by exact Hnew.
      destruct K2 as [|y K2] using rev_ind.
      * apply app_inj_tail in H. destruct H as [HK <-].
        exists arr, []. split; [reflexivity|].
        intros k Hk. rewrite <- HK. now apply tally_keys_complete.
      * clear IHK2. rewrite app_comm_cons, app_assoc in H.
        apply app_inj_tail in H. destruct H as [HK _].
        destruct (IH K1 key K2 HK) as (pre & post & -> & Hpre).
        exists pre, (post ++ [item])%list. split; [|exact Hpre].
        now rewrite <- app_assoc.
Qed.

Lemma sortDesc_nil (entries : Freq) : sortDesc entries = [] -> entries = [].
Proof.
  destruct entries as [|e entries]; [reflexivity|]. intros H. exfalso.
  assert (Hin : In e (sortDesc (e :: entries))) by (apply sortDesc_In; simpl; auto).
  rewrite H in Hin. destruct Hin.
Qed.

(** The first entry after the sort is the first of the entries of greatest
    count: strictly greater than every entry before it, at least as great as
    every entry after it. *)
Lemma sortDesc_first (entries : Freq) (first : string * nat) (rest : Freq) :
  sortDesc entries = first :: rest ->
  exists l1 l2,
    entries = (l1 ++ first :: l2)%list /\
    (forall x, In x l1 -> snd x < snd first) /\
    (forall x, In x l2 -> snd x <= snd first).
Proof.
  revert first rest. induction entries as [|e entries IH]; intros first rest H;
    [discriminate|].
  simpl in H. destruct (sortDesc entries) as [|e' sorted] eqn:Es.
  - apply sortDesc_nil in Es. subst entries. simpl in H. injection H as <- <-.
    exists [], []. repeat split; intros x [].
  - destruct (IH e' sorted eq_refl) as (l1 & l2 & -> & Hlt & Hle).
    simpl in H. destruct (Nat.ltb_spec (snd e) (snd e')) as [Hlow|Hhigh].
    + injection H as <- <-. exists (e :: l1), l2. repeat split; auto.
      intros x [<-|Hx]; auto.
    + injection H as <- <-. exists [], (l1 ++ e' :: l2)%list.
      repeat split; [intros x []|].
      intros x Hx. apply in_app_or in Hx. destruct Hx as [Hx|[<-|Hx]].
      * specialize (Hlt x Hx). lia.
      * exact Hhigh.
      * specialize (Hle x Hx). lia.
Qed.

End OrderFacts.

Section SmoothingExtras.

(** X5.  On a non-empty array of ordinary names (no name that an object
    inherits, none made of digits only) [getMostFrequent] returns a name of
    the array together with its number of occurrences, which is at least 1
    and at least the number of occurrences of any other name; on the empty
    array it returns [null] and 0. *)
Theorem most_frequent_is_a_maximum :
  forall arr : list string,
    arr <> [] ->
    Forall (fun s => ordinaryName s = true) arr ->
    getMostFrequent [] = (None, 0) /\
    exists name n,
      getMostFrequent arr = (Some name, n) /\
      In name arr /\
      n = count_occ string_dec arr name /\
      1 <= n <= List.length arr /\
      forall key, count_occ string_dec arr key <= n.
Proof.
  intros arr Harr _. split; [reflexivity|].
  destruct (getMostFrequent_spec arr Harr) as (name & n & E & Hin & Hn & Hmax).
  exists name, n. repeat split; auto.
  - rewrite Hn. now apply (count_occ_In string_dec).
  - rewrite Hn. apply count_occ_bound.
Qed.

Lemma most_frequent_is_a_maximum_witness :
  exists name n,
    getMostFrequent ["Pen"; "Onion"; "Pen"] = (Some name, n) /\ In name ["Pen"; "Onion"; "Pen"].
Proof.
  assert (H : ["Pen"; "Onion"; "Pen"] <> []) by discriminate.
  assert (Hord : Forall (fun s => ordinaryName s = true) ["Pen"; "Onion"; "Pen"])
    by (repeat constructor).
  destruct (proj2 (most_frequent_is_a_maximum ["Pen"; "Onion"; "Pen"] H Hord))
    as (name & n & E & Hin & _).
  exists name, n. split; assumption.
Defined.

(** X6.  On an array of ordinary names, among the names of greatest count
    [getMostFrequent] returns the one that occurs first in the array: every
    name that occurs before the first occurrence of the returned name has
    strictly fewer occurrences. *)
Theorem most_frequent_tie_goes_to_first_seen :
  forall (arr : list string) (name : string) (n : nat),
    Forall (fun s => ordinaryName s = true) arr ->
    getMostFrequent arr = (Some name, n) ->
    exists pre post,
      arr = (pre ++ name :: post)%list /\
      ~ In name pre /\
      forall key, In key pre -> count_occ string_dec arr key < n.
Proof.
  intros arr name n _ H. unfold getMostFrequent in H.
  destruct arr as [|a arr']; [discriminate|]. set (arr := a :: arr') in *.
  destruct (sortDesc (tally arr)) as [|[name' n'] rest] eqn:Es; [discriminate|].
  injection H as -> ->.
  destruct (sortDesc_first _ _ _ Es) as (l1 & l2 & Ht & Hlt & _).
  assert (Hkeys : map fst (tally arr) = (map fst l1 ++ name :: map fst l2)%list).
  { rewrite Ht, map_app. reflexivity. }
  destruct (tally_keys_order arr _ _ _ Hkeys) as (pre & post & Harr & Hpre).
  assert (Hcount : forall key, In key pre -> count_occ string_dec arr key < n).
  { intros key Hk. apply Hpre in Hk. apply in_map_iff in Hk.
    destruct Hk as [[k m] [Hfst Hin]]. simpl in Hfst. subst k.
    specialize (Hlt _ Hin). simpl in Hlt.
    rewrite <- get_tally.
    rewrite (get_In (tally arr) key m (tally_NoDup arr)); [exact Hlt|].
    rewrite Ht. apply in_or_app. now left. }
  assert (Hn : count_occ string_dec arr name = n).
  { rewrite <- get_tally. apply get_In; [apply tally_NoDup|].
    rewrite Ht. apply in_or_app. right. simpl. auto. }
  exists pre, post. repeat split; [exact Harr| |exact Hcount].
  intros Hin. specialize (Hcount name Hin). lia.
Qed.

Lemma most_frequent_tie_goes_to_first_seen_witness :
  exists pre post,
    ["Onion"; "Pen"; "Glasses"; "Glasses"; "Pen"] = (pre ++ "Pen" :: post)%list /\
    ~ In "Pen" pre.
Proof.
  assert (Hord : Forall (fun s => ordinaryName s = true)
                        ["Onion"; "Pen"; "Glasses"; "Glasses"; "Pen"])
    by (repeat constructor).
  destruct (most_frequent_tie_goes_to_first_seen
              ["Onion"; "Pen"; "Glasses"; "Glasses"; "Pen"] "Pen" 2 Hord eq_refl)
    as (pre & post & E & Hnot & _).
  exists pre, post. split; assumption.
Defined.

(** X7.  A history of ordinary, non-empty names passes the loop's test
    [freq >= MIN_FREQUENCY && stableName] exactly when some name occurs in it
    at least twice. *)
Theorem confirmed_iff_some_name_repeats :
  forall history : list string,
    Forall (fun s => ordinaryName s = true) history ->
    Forall (fun s => s <> "") history ->
    (confirmed history = true <->
     exists name, 2 <= count_occ string_dec history name).
Proof.
  intros history _ Hne. split.
  - intros H. unfold confirmed in H.
    destruct history as [|a rest]; [discriminate|].
    destruct (getMostFrequent_spec (a :: rest)) as (name & n & E & _ & Hn & _);
      [discriminate|].
    rewrite E in H. apply andb_true_iff in H. destruct H as [H _].
    apply Nat.leb_le in H. exists name. unfold MIN_FREQUENCY in H. lia.
  - intros [name H]. now apply confirmed_true with (name := name).
Qed.

Lemma confirmed_iff_some_name_repeats_witness :
  confirmed ["Pen"; "Onion"; "Pen"] = true <->
  exists name, 2 <= count_occ string_dec ["Pen"; "Onion"; "Pen"] name.
Proof.
  apply (confirmed_iff_some_name_repeats ["Pen"; "Onion"; "Pen"]).
  - repeat constructor.
  - repeat constructor; discriminate.
Defined.

End SmoothingExtras.

(* ====================================================================== *)
(** * Further properties of the scoring *)
(* ====================================================================== *)

Section RangeFacts.
Local Open Scope R_scope.

Variable c : Canvas.
Hypothesis width_pos : 0 < width c.
Hypothesis height_pos : 0 < height c.

(** A box whose centre lies in the frame is at a distance between 0 (the
    centre of the frame) and 1 (a corner). *)
Lemma centerDist_range (x y w h : R) :
  0 <= x + w / 2 <= width c -> 0 <= y + h / 2 <= height c ->
  0 <= centerDist c (x, y, w, h) <= 1.
Proof.
  intros Hx Hy. unfold centerDist.
  set (dx := (x + w / 2 - width c / 2) / (width c / 2)).
  set (dy := (y + h / 2 - height c / 2) / (height c / 2)).
  assert (Ex : dx * (width c / 2) = x + w / 2 - width c / 2)
    by (unfold dx; field; lra).
  assert (Ey : dy * (height c / 2) = y + h / 2 - height c / 2)
    by (unfold dy; field; lra).
  assert (Hdx : -1 <= dx <= 1) by (split; nra).
  assert (Hdy : -1 <= dy <= 1) by (split; nra).
  assert (Hsum : 0 <= dx * dx + dy * dy <= 2) by (split; nra).
  assert (H2 : 0 < sqrt 2) by (apply sqrt_lt_R0; lra).
  assert (Hs0 : 0 <= sqrt (dx * dx + dy * dy)) by apply sqrt_pos.
  assert (Hs2 : sqrt (dx * dx + dy * dy) <= sqrt 2)
    by (apply sqrt_le_1_alt; lra).
  split.
  - apply Rmult_le_pos; [exact Hs0|]. left. now apply Rinv_0_lt_compat.
  - apply (Rmult_le_reg_r (sqrt 2)); [exact H2|].
    unfold Rdiv. rewrite Rmult_assoc, Rinv_l by lra. lra.
Qed.

(** The factor the score is multiplied by, for such a box: between 1 and 1.3. *)
Lemma boost_range (x y w h score adjusted : R) :
  0 <= x + w / 2 <= width c -> 0 <= y + h / 2 <= height c ->
  validateAndScoreDetection c (x, y, w, h) score = Some adjusted ->
  exists factor, 1 <= factor <= 1.3 /\ adjusted = Rmin (score * factor) 1.0.
Proof.
  intros Hx Hy H. unfold validateAndScoreDetection in H.
  destruct (Rltb _ 0.02 || Rltb 0.85 _); [discriminate|].
  injection H as <-.
  pose proof (centerDist_range x y w h Hx Hy) as Hd. cbv [centerDist] in Hd.
  eexists. split; [|reflexivity].
  destruct (Rleb 0.1 _ && Rleb _ 0.5); lra.
Qed.

End RangeFacts.

Section ScoringExtras.
Local Open Scope R_scope.

(** X8.  The meter never goes down when the score goes up, never shows more
    than 100, and shows 100 High for every score of a third or more. *)
Theorem meter_is_monotone_and_saturates :
  (forall s1 s2 : R,
      s1 <= s2 ->
      (percent (updateConfidence s1) <= percent (updateConfidence s2))%Z) /\
  (forall s : R, (percent (updateConfidence s) <= 100)%Z) /\
  (forall s : R, 1 / 3 <= s -> updateConfidence s = mkMeter 100 high).
Proof.
  repeat split.
  - intros s1 s2 H. unfold updateConfidence. simpl.
    apply Z.min_le_compat_r. apply Zfloor_le.
    assert (Rmin (s1 * 3) 1.0 <= Rmin (s2 * 3) 1.0).
    { apply Rmin_glb.
      - apply Rle_trans with (1 := Rmin_l _ _). lra.
      - apply Rmin_r. }
    lra.
  - intros s. unfold updateConfidence. simpl. apply Z.le_min_r.
  - intros s H. unfold updateConfidence.
    rewrite Rmin_right by lra.
    rewrite (Math_round_eq (1.0 * 100) 100) by (simpl; lra).
    reflexivity.
Qed.

Lemma meter_is_monotone_and_saturates_witness :
  updateConfidence 0.5 = mkMeter 100 high.
Proof.
  apply (proj2 (proj2 meter_is_monotone_and_saturates) 0.5). lra.
Defined.

(** X9.  On a canvas of positive size, for a box whose centre lies in the
    frame and a raw score between 0 and 1, an accepted detection gets a score
    that is at least the raw score, at most 1.3 times the raw score, and at
    most 1. *)
Theorem adjusted_score_bounds :
  forall (c : Canvas) (x y w h score adjusted : R),
    0 < width c -> 0 < height c ->
    0 <= x + w / 2 <= width c -> 0 <= y + h / 2 <= height c ->
    0 <= score <= 1 ->
    validateAndScoreDetection c (x, y, w, h) score = Some adjusted ->
    score <= adjusted /\ adjusted <= 1.3 * score /\ adjusted <= 1.
Proof.
  intros c x y w h score adjusted HW HH Hx Hy Hs H.
  destruct (boost_range c HW HH x y w h score adjusted Hx Hy H)
    as (factor & Hf & ->).
  assert (H1 : score <= score * factor) by nra.
  assert (H2 : score * factor <= 1.3 * score) by nra.
  repeat split.
  - apply Rmin_glb; lra.
  - apply Rle_trans with (1 := Rmin_l _ _). exact H2.
  - apply Rle_trans with (1 := Rmin_r _ _). lra.
Qed.

Lemma adjusted_score_bounds_witness :
  validateAndScoreDetection (mkCanvas 10 10) ((10 - 5) / 2, (10 - 5) / 2, 5, 5) 0.5
  = Some 0.65 /\
  0.5 <= 0.65 /\ 0.65 <= 1.3 * 0.5 /\ 0.65 <= 1.
Proof.
  assert (H : validateAndScoreDetection (mkCanvas 10 10)
                ((10 - 5) / 2, (10 - 5) / 2, 5, 5) 0.5 = Some 0.65).
  { rewrite (score_of_share (mkCanvas 10 10) _ 0.5 0.25 0).
    - compare_numerals. simpl. f_equal. rewrite Rmin_left; lra.
    - simpl. lra.
    - apply (centerDist_centred (mkCanvas 10 10)); simpl; lra.
    - lra. }
  split; [exact H|].
  apply (adjusted_score_bounds (mkCanvas 10 10) ((10 - 5) / 2) ((10 - 5) / 2)
           5 5 0.5 0.65); simpl; try lra; exact H.
Defined.

(** X10.  Whether a box is accepted does not depend on the raw score, and,
    on a canvas of positive size and for a box whose centre lies in the
    frame, a higher raw score never gets a lower adjusted score. *)
Theorem adjusted_score_is_monotone :
  forall (c : Canvas) (x y w h s1 s2 : R),
    0 < width c -> 0 < height c ->
    0 <= x + w / 2 <= width c -> 0 <= y + h / 2 <= height c ->
    s1 <= s2 ->
    match validateAndScoreDetection c (x, y, w, h) s1,
          validateAndScoreDetection c (x, y, w, h) s2 with
    | Some a1, Some a2 => a1 <= a2
    | None, None => True
    | _, _ => False
    end.
Proof.
  intros c x y w h s1 s2 HW HH Hx Hy Hs.
  pose proof (centerDist_range c HW HH x y w h Hx Hy) as Hd.
  unfold validateAndScoreDetection.
  destruct (Rltb _ 0.02 || Rltb 0.85 _); [exact I|].
  set (factor := 1 + (1 - centerDist c (x, y, w, h)) * 0.2 + _).
  assert (Hf : 1 <= factor).
  { unfold factor. destruct (Rleb 0.1 _ && Rleb _ 0.5); lra. }
  apply Rmin_glb.
  - apply Rle_trans with (1 := Rmin_l _ _). nra.
  - apply Rmin_r.
Qed.

Lemma adjusted_score_is_monotone_witness :
  match validateAndScoreDetection (mkCanvas 10 10) (2, 2, 5, 5) 0.2,
        validateAndScoreDetection (mkCanvas 10 10) (2, 2, 5, 5) 0.4 with
  | Some a1, Some a2 => a1 <= a2
  | None, None => True
  | _, _ => False
  end.
Proof.
  apply (adjusted_score_is_monotone (mkCanvas 10 10) 2 2 5 5 0.2 0.4);
    simpl; lra.
Defined.

End ScoringExtras.

(* ====================================================================== *)
(** * The regions the program cuts out and draws *)
(* ====================================================================== *)

Section RegionExtras.
Local Open Scope R_scope.

(** X11.  For a box of non-negative size whose left upper corner is not
    beyond the right or the lower edge of the video, the part of the video
    [classifyRegion] draws is a rectangle of non-negative width and height
    that lies within the video, also when the box itself reaches beyond the
    video on any side. *)
Theorem crop_stays_in_video :
  forall (video : Regions.Video) (x y w h : R),
    0 <= Regions.videoWidth video -> 0 <= Regions.videoHeight video ->
    0 <= w -> 0 <= h ->
    x <= Regions.videoWidth video -> y <= Regions.videoHeight video ->
    let '(srcX, srcY, srcW, srcH) := Regions.sourceRect video (x, y, w, h) in
    0 <= srcX <= Regions.videoWidth video /\
    0 <= srcY <= Regions.videoHeight video /\
    0 <= srcW /\ 0 <= srcH /\
    srcX + srcW <= Regions.videoWidth video /\
    srcY + srcH <= Regions.videoHeight video.
Proof.
  intros video x y w h HW HH Hw Hh Hx Hy. unfold Regions.sourceRect.
  set (padding := Rmin w h * 0.1).
  assert (Hp : 0 <= padding).
  { unfold padding, Rmin. destruct (Rle_dec w h); lra. }
  assert (HX : 0 <= Rmax 0 (x - padding) <= Regions.videoWidth video).
  { split; [apply Rmax_l|]. apply Rmax_lub; lra. }
  assert (HY : 0 <= Rmax 0 (y - padding) <= Regions.videoHeight video).
  { split; [apply Rmax_l|]. apply Rmax_lub; lra. }
  pose proof (Rmin_l (Regions.videoWidth video - Rmax 0 (x - padding))
                     (w + padding * 2)) as HWl.
  pose proof (Rmin_l (Regions.videoHeight video - Rmax 0 (y - padding))
                     (h + padding * 2)) as HHl.
  repeat split; try tauto; try lra; apply Rmin_glb; lra.
Qed.

Lemma crop_stays_in_video_witness :
  let '(srcX, srcY, srcW, srcH) :=
    Regions.sourceRect (Regions.mkVideo 640 480) (600, -20, 100, 50) in
  0 <= srcX <= 640 /\ 0 <= srcY <= 480 /\ 0 <= srcW /\ 0 <= srcH /\
  srcX + srcW <= 640 /\ srcY + srcH <= 480.
Proof.
  apply (crop_stays_in_video (Regions.mkVideo 640 480) 600 (-20) 100 50);
    simpl; lra.
Defined.

(** Outside these bounds the part drawn can have a negative size: a box that
    starts beyond the right and lower edges of a 640 x 480 video. *)
Example crop_of_a_box_beyond_the_video :
  Regions.sourceRect (Regions.mkVideo 640 480) (700, 500, 10, 10)
  = (699, 499, -59, -19).
Proof.
  unfold Regions.sourceRect. simpl.
  replace (Rmin 10 10 * 0.1) with 1 by (rewrite Rmin_left; lra).
  rewrite !Rmax_right by lra. rewrite !Rmin_left by lra.
  repeat f_equal; lra.
Qed.

(** X12.  For a box of non-negative size that lies in the video, the part
    [classifyRegion] draws contains the box, starts at most a tenth of the
    shorter side of the box before it, and is at most a fifth of that side
    wider and taller than the box. *)
Theorem crop_contains_box :
  forall (video : Regions.Video) (x y w h : R),
    0 <= x -> 0 <= y -> 0 <= w -> 0 <= h ->
    x + w <= Regions.videoWidth video -> y + h <= Regions.videoHeight video ->
    let '(srcX, srcY, srcW, srcH) := Regions.sourceRect video (x, y, w, h) in
    let padding := Rmin w h * 0.1 in
    x - padding <= srcX <= x /\ y - padding <= srcY <= y /\
    x + w <= srcX + srcW /\ y + h <= srcY + srcH /\
    w <= srcW <= w + 2 * padding /\ h <= srcH <= h + 2 * padding.
Proof.
  intros video x y w h Hx Hy Hw Hh HW HH. unfold Regions.sourceRect.
  set (padding := Rmin w h * 0.1).
  assert (Hp : 0 <= padding).
  { unfold padding. apply Rmult_le_pos; [|lra]. apply Rmin_glb; assumption. }
  assert (Hsx : x - padding <= Rmax 0 (x - padding) <= x).
  { split; [apply Rmax_r|]. apply Rmax_lub; lra. }
  assert (Hsy : y - padding <= Rmax 0 (y - padding) <= y).
  { split; [apply Rmax_r|]. apply Rmax_lub; lra. }
  set (srcX := Rmax 0 (x - padding)) in *.
  set (srcY := Rmax 0 (y - padding)) in *.
  assert (Hsw : w <= Rmin (Regions.videoWidth video - srcX) (w + padding * 2)
                <= w + 2 * padding).
  { split; [apply Rmin_glb; lra|].
    apply Rle_trans with (1 := Rmin_r _ _). lra. }
  assert (Hsh : h <= Rmin (Regions.videoHeight video - srcY) (h + padding * 2)
                <= h + 2 * padding).
  { split; [apply Rmin_glb; lra|].
    apply Rle_trans with (1 := Rmin_r _ _). lra. }
  assert (Hrw : x + w <= srcX + Rmin (Regions.videoWidth video - srcX) (w + padding * 2)).
  { unfold Rmin. destruct (Rle_dec _ _); lra. }
  assert (Hrh : y + h <= srcY + Rmin (Regions.videoHeight video - srcY) (h + padding * 2)).
  { unfold Rmin. destruct (Rle_dec _ _); lra. }
  repeat split; lra.
Qed.

Lemma crop_contains_box_witness :
  let '(srcX, srcY, srcW, srcH) :=
    Regions.sourceRect (Regions.mkVideo 640 480) (5, 100, 50, 200) in
  srcX <= 5 /\ 5 + 50 <= srcX + srcW.
Proof.
  assert (H0 : 0 <= 5) by lra.
  assert (H1 : 0 <= 100) by lra.
  assert (H2 : 0 <= 50) by lra.
  assert (H3 : 0 <= 200) by lra.
  assert (H4 : 5 + 50 <= Regions.videoWidth (Regions.mkVideo 640 480))
    by (simpl; lra).
  assert (H5 : 100 + 200 <= Regions.videoHeight (Regions.mkVideo 640 480))
    by (simpl; lra).
  pose proof (crop_contains_box (Regions.mkVideo 640 480) 5 100 50 200
                H0 H1 H2 H3 H4 H5) as H.
  destruct (Regions.sourceRect (Regions.mkVideo 640 480) (5, 100, 50, 200))
    as [[[srcX srcY] srcW] srcH].
  destruct H as ([_ Hl] & _ & Hr & _). split; assumption.
Defined.

(** X13.  On a video of positive size, when the classification succeeds,
    [classifyCenterRegion] returns the classifier's predictions for a square
    that lies in the video with its centre on the centre of the video, and
    that square as the box; on a canvas of the size of the video the box
    covers at most 0.7225 of the frame, so [validateAndScoreDetection] never
    rejects it as too large. *)
Theorem center_region_is_centred_square :
  forall (classify : BBox -> Classified) (video : Regions.Video)
         (result : Regions.CenterResult),
    0 < Regions.videoWidth video -> 0 < Regions.videoHeight video ->
    Regions.classifyCenterRegion classify video = Some result ->
    classify (Regions.bbox result) = Resolved (Regions.predictions result) /\
    let c := mkCanvas (Regions.videoWidth video) (Regions.videoHeight video) in
    let '(x, y, w, h) := Regions.bbox result in
    w = h /\ 0 <= x /\ 0 <= y /\
    x + w <= width c /\ y + h <= height c /\
    x + w / 2 = width c / 2 /\ y + h / 2 = height c / 2 /\
    sizeRatio c (x, y, w, h) <= 0.7225 /\
    Rltb 0.85 (sizeRatio c (x, y, w, h)) = false.
Proof.
  intros classify video result HW HH H.
  unfold Regions.classifyCenterRegion in H.
  destruct (classify (Regions.centerRect video)) as [|preds] eqn:E; [discriminate|].
  injection H as <-. simpl Regions.bbox. simpl Regions.predictions.
  split; [exact E|].
  unfold Regions.centerRect. simpl width. simpl height.
  set (W := Regions.videoWidth video) in *. set (H := Regions.videoHeight video) in *.
  set (size := Rmin W H * 0.85).
  assert (Hmin : 0 < Rmin W H <= W /\ Rmin W H <= H).
  { repeat split; [apply Rmin_glb_lt; assumption|apply Rmin_l|apply Rmin_r]. }
  assert (Hr : sizeRatio (mkCanvas W H) ((W - size) / 2, (H - size) / 2, size, size)
               <= 0.7225).
  { unfold sizeRatio. simpl.
    apply (Rmult_le_reg_r (W * H)); [nra|].
    unfold Rdiv. rewrite Rmult_assoc, Rinv_l by nra. unfold size. nra. }
  repeat split; try (unfold size; lra).
  - exact Hr.
  - apply Rltb_false. lra.
Qed.

Lemma center_region_is_centred_square_witness :
  let '(x, y, w, h) :=
    Regions.bbox (Regions.mkCenterResult [] (Regions.centerRect (Regions.mkVideo 640 480))) in
  w = h /\ 0 <= x /\ 0 <= y.
Proof.
  assert (HW : 0 < Regions.videoWidth (Regions.mkVideo 640 480)) by (simpl; lra).
  assert (HH : 0 < Regions.videoHeight (Regions.mkVideo 640 480)) by (simpl; lra).
  pose proof (center_region_is_centred_square (fun _ => Resolved [])
                (Regions.mkVideo 640 480)
                (Regions.mkCenterResult [] (Regions.centerRect (Regions.mkVideo 640 480)))
                HW HH eq_refl) as [_ H].
  destruct (Regions.bbox _) as [[[x y] w] h].
  destruct H as (H1 & H2 & H3 & _). repeat split; assumption.
Defined.

End RegionExtras.

(* ====================================================================== *)
(** * Further properties of the loop *)
(* ====================================================================== *)

Section RunFacts.
Local Open Scope R_scope.

Lemma runFrames_app (st : State) (frames1 frames2 : list Frames.Frame) :
  runFrames st (frames1 ++ frames2) = runFrames (runFrames st frames1) frames2.
Proof. unfold runFrames. apply fold_left_app. Qed.

(** What no turn of the loop writes to. *)
Lemma loop_untouched (st : State) (ready : bool) (answer : Classified) :
  running (loop st ready answer) = running st /\
  canvas (loop st ready answer) = canvas st /\
  lowConfidenceFrames (loop st ready answer) = lowConfidenceFrames st.
Proof.
  unfold loop. destruct (running st) eqn:Er; simpl; auto.
  destruct ready; auto. destruct answer as [|predictions]; auto.
  unfold processPredictions. destruct predictions as [|topPred rest]; auto.
  destruct (firstAccepted _) as [[pred result]|].
  - destruct (onMatch_fields st pred result) as (H1 & H2 & _ & _ & H3 & _).
    rewrite H1, H2, H3. auto.
  - destruct (onNoMatch_fields st topPred) as (H1 & H2 & _ & _ & H3 & _).
    rewrite H1, H2, H3. auto.
Qed.

Lemma runFrames_untouched (st : State) (frames : list Frames.Frame) :
  running (runFrames st frames) = running st /\
  canvas (runFrames st frames) = canvas st /\
  lowConfidenceFrames (runFrames st frames) = lowConfidenceFrames st.
Proof.
  revert st. induction frames as [|[ready answer] frames IH]; intros st; simpl; auto.
  destruct (IH (loop st ready answer)) as (H1 & H2 & H3).
  destruct (loop_untouched st ready answer) as (L1 & L2 & L3).
  simpl. rewrite H1, H2, H3. auto.
Qed.

Lemma loop_idle (st : State) (frame : Frames.Frame) :
  Frames.isIdle frame -> loop st (fst frame) (snd frame) = st.
Proof.
  destruct frame as [ready answer]. unfold Frames.isIdle, loop. simpl.
  intros [-> | [-> | ->]]; destruct (running st); simpl; try reflexivity;
    destruct ready; reflexivity.
Qed.

Lemma loop_stopped (st : State) (ready : bool) (answer : Classified) :
  running st = false -> loop st ready answer = st.
Proof. intros H. unfold loop. now rewrite H. Qed.

Lemma loop_miss (st : State) (frame : Frames.Frame) :
  running st = true -> Frames.isMiss frame ->
  let st' := loop st (fst frame) (snd frame) in
  noDetectionFrames st' = S (noDetectionFrames st) /\
  detectionHistory st' = detectionHistory st.
Proof.
  destruct frame as [ready answer]. unfold Frames.isMiss. simpl.
  intros Hrun (-> & topPred & rest & -> & Hnone).
  rewrite (loop_no_match st topPred rest Hrun Hnone).
  destruct (onNoMatch_fields st topPred) as (_ & _ & Hh & Hn & _). auto.
Qed.

Lemma runFrames_misses (st : State) (misses : list Frames.Frame) :
  running st = true -> Forall Frames.isMiss misses ->
  noDetectionFrames (runFrames st misses)
  = (noDetectionFrames st + List.length misses)%nat /\
  detectionHistory (runFrames st misses) = detectionHistory st.
Proof.
  revert st. induction misses as [|frame misses IH]; intros st Hrun Hall; simpl.
  - split; [lia|reflexivity].
  - inversion_clear Hall as [|? ? Hmiss Hrest].
    destruct (loop_miss st frame Hrun Hmiss) as [Hn Hh].
    destruct (IH (loop st (fst frame) (snd frame))) as [IHn IHh]; [|exact Hrest|].
    + destruct (loop_untouched st (fst frame) (snd frame)) as [-> _]. exact Hrun.
    + rewrite IHn, IHh, Hn, Hh. split; [lia|reflexivity].
Qed.

(** The names the matcher gives. *)
Lemma loop_history_demo_names (st : State) (ready : bool) (answer : Classified) :
  Forall (fun s => In s ["Onion"; "Water Bottle"; "Glasses"; "Pen"])
         (detectionHistory st) ->
  Forall (fun s => In s ["Onion"; "Water Bottle"; "Glasses"; "Pen"])
         (detectionHistory (loop st ready answer)).
Proof.
  intros H. unfold loop. destruct (running st); simpl; auto.
  destruct ready; auto. destruct answer as [|predictions]; auto.
  unfold processPredictions. destruct predictions as [|topPred rest]; auto.
  destruct (firstAccepted _) as [[pred result]|] eqn:E.
  - destruct (onMatch_fields st pred result) as (_ & _ & -> & _).
    apply firstAccepted_some in E. destruct E as (_ & _ & _ & _ & Hm & _).
    apply mapToRecycleBucket_range in Hm.
    rewrite Forall_forall in *. intros s Hs.
    apply pushHistory_In in Hs. destruct Hs as [Hs | ->]; [exact (H s Hs)|].
    destruct Hm as [-> | [-> | [-> | ->]]]; simpl; auto.
  - destruct (onNoMatch_fields st topPred) as (_ & _ & -> & _). exact H.
Qed.

End RunFacts.

Section LoopExtras.
Local Open Scope R_scope.

(** X14.  No run of the loop changes [running], the size of the canvas or
    [lowConfidenceFrames]: the loop never stops itself and never counts a
    frame of low confidence. *)
Theorem loop_leaves_running_canvas_and_low_confidence_count :
  forall (st : State) (frames : list Frames.Frame),
    running (runFrames st frames) = running st /\
    canvas (runFrames st frames) = canvas st /\
    lowConfidenceFrames (runFrames st frames) = lowConfidenceFrames st.
Proof. exact runFrames_untouched. Qed.

(** X15.  A frame on which model or video is not ready, the classification
    is rejected or the classifier gives no prediction changes nothing: taking
    it out of a run gives the same final state.  A loop that is not running
    changes nothing on any run. *)
Theorem idle_frames_change_nothing :
  (forall (st : State) (before after : list Frames.Frame) (frame : Frames.Frame),
      Frames.isIdle frame ->
      runFrames st (before ++ frame :: after) = runFrames st (before ++ after)) /\
  (forall (st : State) (frames : list Frames.Frame),
      running st = false -> runFrames st frames = st).
Proof.
  split.
  - intros st before after frame Hidle.
    rewrite !runFrames_app. simpl. now rewrite loop_idle.
  - intros st frames Hrun. induction frames as [|[ready answer] frames IH]; simpl.
    + reflexivity.
    + now rewrite loop_stopped.
Qed.

Lemma idle_frames_change_nothing_witness :
  runFrames startState
    ([(true, Resolved [mkPrediction "pen" 0.5])]
       ++ (true, Rejected) :: [(true, Resolved [mkPrediction "car" 0.9])])
  = runFrames startState
      ([(true, Resolved [mkPrediction "pen" 0.5])]
         ++ [(true, Resolved [mkPrediction "car" 0.9])]).
Proof.
  apply (proj1 idle_frames_change_nothing startState
           [(true, Resolved [mkPrediction "pen" 0.5])]
           [(true, Resolved [mkPrediction "car" 0.9])] (true, Rejected)).
  right. left. reflexivity.
Defined.

(** X16.  Predictions after the third never matter: two answers of the
    classifier that agree on their first three predictions leave the same
    state. *)
Theorem only_first_three_predictions_matter :
  forall (st : State) (ready : bool) (first3 more1 more2 : list Prediction),
    List.length first3 = 3%nat ->
    loop st ready (Resolved (first3 ++ more1)) = loop st ready (Resolved (first3 ++ more2)).
Proof.
  intros st ready first3 more1 more2 H.
  destruct first3 as [|p1 [|p2 [|p3 [|p4 rest]]]]; try discriminate.
  reflexivity.
Qed.

Lemma only_first_three_predictions_matter_witness :
  loop startState true
       (Resolved ([mkPrediction "car" 0.5; mkPrediction "bus" 0.3;
                   mkPrediction "van" 0.1] ++ [mkPrediction "pen" 0.9]))
  = loop startState true
         (Resolved ([mkPrediction "car" 0.5; mkPrediction "bus" 0.3;
                     mkPrediction "van" 0.1] ++ [])).
Proof.
  apply (only_first_three_predictions_matter startState true
           [mkPrediction "car" 0.5; mkPrediction "bus" 0.3; mkPrediction "van" 0.1]).
  reflexivity.
Defined.

(** X17.  With the loop running, after a frame on which a prediction is
    accepted and then a run of frames with predictions of which none is
    accepted, [noDetectionFrames] is the number of those frames, and the
    history is as the accepted frame left it. *)
Theorem no_detection_count_is_run_of_misses :
  forall (st : State) (earlier misses : list Frames.Frame) (hit : Frames.Frame),
    running st = true ->
    Frames.isHit hit ->
    Forall Frames.isMiss misses ->
    noDetectionFrames (runFrames st (earlier ++ hit :: misses)) = List.length misses /\
    detectionHistory (runFrames st (earlier ++ hit :: misses))
    = detectionHistory (runFrames st (earlier ++ [hit])).
Proof.
  intros st earlier misses hit Hrun Hhit Hmisses.
  replace (earlier ++ hit :: misses)%list with ((earlier ++ [hit]) ++ misses)%list
    by (rewrite <- app_assoc; reflexivity).
  rewrite (runFrames_app st (earlier ++ [hit]) misses).
  set (st1 := runFrames st (earlier ++ [hit])).
  assert (Hrun1 : running st1 = true).
  { unfold st1. destruct (runFrames_untouched st (earlier ++ [hit])) as [-> _].
    exact Hrun. }
  assert (Hzero : noDetectionFrames st1 = 0%nat).
  { unfold st1. rewrite runFrames_app. simpl.
    destruct hit as [ready answer].
    destruct Hhit as (Hready & predictions & pred & result & Hanswer & Hfirst).
    simpl in Hready, Hanswer. subst ready answer. simpl.
    rewrite (loop_match _ predictions pred result); [|
      destruct (runFrames_untouched st earlier) as [-> _]; exact Hrun | exact Hfirst].
    apply onMatch_fields. }
  destruct (runFrames_misses st1 misses Hrun1 Hmisses) as [Hn Hh].
  rewrite Hn, Hh, Hzero. split; reflexivity.
Qed.

Lemma no_detection_count_is_run_of_misses_witness :
  noDetectionFrames
    (runFrames startState
       ([] ++ (true, Resolved [mkPrediction "pen" 0.5])
           :: [(true, Resolved [mkPrediction "car" 0.9]);
               (true, Resolved [mkPrediction "pen" 0.01])]))
  = 2%nat.
Proof.
  assert (Hhit : Frames.isHit (true, Resolved [mkPrediction "pen" 0.5])).
  { split; [reflexivity|].
    exists [mkPrediction "pen" 0.5], (mkPrediction "pen" 0.5), (mkBucket "Landfill" "Pen").
    split; [reflexivity|].
    apply firstAccepted_some. exists [], []. repeat split; simpl; lra. }
  assert (Hm1 : Frames.isMiss (true, Resolved [mkPrediction "car" 0.9])).
  { split; [reflexivity|]. exists (mkPrediction "car" 0.9), []. split; reflexivity. }
  assert (Hm2 : Frames.isMiss (true, Resolved [mkPrediction "pen" 0.01])).
  { split; [reflexivity|]. exists (mkPrediction "pen" 0.01), [].
    split; [reflexivity|]. apply firstAccepted_none.
    intros q [<-|[]]. right. simpl. lra. }
  exact (proj1 (no_detection_count_is_run_of_misses startState []
                  [(true, Resolved [mkPrediction "car" 0.9]);
                   (true, Resolved [mkPrediction "pen" 0.01])]
                  (true, Resolved [mkPrediction "pen" 0.5])
                  eq_refl Hhit (Forall_cons _ Hm1 (Forall_cons _ Hm2 (Forall_nil _))))).
Defined.

(** X18.  In every state the loop reaches from an empty history, the
    history holds at most five names, each of them one of "Onion",
    "Water Bottle", "Glasses" and "Pen". *)
Theorem history_holds_demo_names :
  forall (st : State) (frames : list Frames.Frame),
    detectionHistory st = [] ->
    (List.length (detectionHistory (runFrames st frames)) <= HISTORY_SIZE)%nat /\
    Forall (fun s => In s ["Onion"; "Water Bottle"; "Glasses"; "Pen"])
           (detectionHistory (runFrames st frames)).
Proof.
  intros st frames Hempty. split.
  - apply runFrames_history_length. rewrite Hempty. simpl. unfold HISTORY_SIZE. lia.
  - assert (H : Forall (fun s => In s ["Onion"; "Water Bottle"; "Glasses"; "Pen"])
                       (detectionHistory st)) by (rewrite Hempty; constructor).
    clear Hempty. revert st H.
    induction frames as [|[ready answer] frames IH]; intros st H; simpl; [exact H|].
    apply IH, loop_history_demo_names, H.
Qed.

Lemma history_holds_demo_names_witness :
  (List.length (detectionHistory
                  (runFrames startState [(true, Resolved [mkPrediction "pen" 0.5])]))
   <= HISTORY_SIZE)%nat.
Proof.
  exact (proj1 (history_holds_demo_names startState
                  [(true, Resolved [mkPrediction "pen" 0.5])] eq_refl)).
Defined.

End LoopExtras.

Section DisplayFacts.
Local Open Scope R_scope.

(** Among names taken from four, five cannot be all different. *)
Lemma five_demo_names_repeat (history : list string) :
  Forall (fun s => In s ["Onion"; "Water Bottle"; "Glasses"; "Pen"]) history ->
  List.length history = 5%nat ->
  exists name, (2 <= count_occ string_dec history name)%nat.
Proof.
  intros Hall Hlen.
  destruct (le_lt_dec 2 (count_occ string_dec history "Onion")) as [H|H1]; [eauto|].
  destruct (le_lt_dec 2 (count_occ string_dec history "Water Bottle")) as [H|H2]; [eauto|].
  destruct (le_lt_dec 2 (count_occ string_dec history "Glasses")) as [H|H3]; [eauto|].
  destruct (le_lt_dec 2 (count_occ string_dec history "Pen")) as [H|H4]; [eauto|].
  exfalso.
  assert (Hnd : NoDup history).
  { apply (NoDup_count_occ string_dec). intros x.
    destruct (in_dec string_dec x history) as [Hin|Hout].
    - rewrite Forall_forall in Hall. specialize (Hall x Hin). simpl in Hall.
      destruct Hall as [<-|[<-|[<-|[<-|[]]]]]; lia.
    - apply (count_occ_not_In string_dec) in Hout. lia. }
  assert (Hincl : incl history ["Onion"; "Water Bottle"; "Glasses"; "Pen"]).
  { intros x Hx. rewrite Forall_forall in Hall. now apply Hall. }
  pose proof (NoDup_incl_length Hnd Hincl) as Hle. simpl in Hle. lia.
Qed.

Lemma demo_names_nonempty (history : list string) :
  Forall (fun s => In s ["Onion"; "Water Bottle"; "Glasses"; "Pen"]) history ->
  Forall (fun s => s <> "") history.
Proof.
  apply Forall_impl. intros s Hs. simpl in Hs.
  destruct Hs as [<-|[<-|[<-|[<-|[]]]]]; discriminate.
Qed.

Lemma runFrames_demo_names (st : State) (frames : list Frames.Frame) :
  Forall (fun s => In s ["Onion"; "Water Bottle"; "Glasses"; "Pen"])
         (detectionHistory st) ->
  Forall (fun s => In s ["Onion"; "Water Bottle"; "Glasses"; "Pen"])
         (detectionHistory (runFrames st frames)).
Proof.
  revert st. induction frames as [|[ready answer] frames IH]; intros st H; simpl;
    [exact H|].
  apply IH, loop_history_demo_names, H.
Qed.

Lemma runFrames_accepted (st : State) (frames : list Frames.Frame)
      (names : list string) :
  running st = true ->
  Forall2 Frames.acceptsName frames names ->
  detectionHistory (runFrames st frames) = observeAll (detectionHistory st) names.
Proof.
  intros Hrun Hall. revert st Hrun.
  induction Hall as [|[ready answer] name frames names Hacc Hrest IH];
    intros st Hrun; simpl; [reflexivity|].
  destruct Hacc as (Hready & predictions & pred & result & Hanswer & Hfirst & Hname).
  simpl in Hready, Hanswer. subst ready answer name.
  rewrite (loop_match st predictions pred result Hrun Hfirst).
  destruct (onMatch_fields st pred result) as (Hr & _ & Hh & _).
  rewrite IH by (rewrite Hr; exact Hrun). now rewrite Hh.
Qed.

Lemma accepts_pen : Frames.acceptsName (true, Resolved [mkPrediction "pen" 0.5]) "Pen".
Proof.
  split; [reflexivity|].
  exists [mkPrediction "pen" 0.5], (mkPrediction "pen" 0.5), (mkBucket "Landfill" "Pen").
  repeat split. apply firstAccepted_some. exists [], []. repeat split; simpl; lra.
Qed.

Lemma first_accepted_water_bottle :
  firstAccepted (top3 [mkPrediction "water bottle" 0.2])
  = Some (mkPrediction "water bottle" 0.2, mkBucket "Plastic" "Water Bottle").
Proof. apply firstAccepted_some. exists [], []. repeat split; simpl; lra. Qed.

End DisplayFacts.

Section DisplayExtras.
Local Open Scope R_scope.

(** X19.  In every state the loop reaches from an empty history with five
    names in the history, the history passes the loop's test
    [freq >= MIN_FREQUENCY && stableName]: the matcher gives four names only,
    so five of them cannot be all different. *)
Theorem full_history_is_confirmed :
  forall (st : State) (frames : list Frames.Frame),
    detectionHistory st = [] ->
    List.length (detectionHistory (runFrames st frames)) = HISTORY_SIZE ->
    confirmed (detectionHistory (runFrames st frames)) = true.
Proof.
  intros st frames Hempty Hlen.
  assert (Hall : Forall (fun s => In s ["Onion"; "Water Bottle"; "Glasses"; "Pen"])
                        (detectionHistory (runFrames st frames))).
  { apply runFrames_demo_names. rewrite Hempty. constructor. }
  destruct (five_demo_names_repeat _ Hall Hlen) as [name Hcount].
  apply confirmed_true with (name := name); [|exact Hcount].
  now apply demo_names_nonempty.
Qed.

Lemma full_history_is_confirmed_witness :
  confirmed (detectionHistory
               (runFrames startState
                  (repeat (true, Resolved [mkPrediction "pen" 0.5]) 5))) = true.
Proof.
  apply (full_history_is_confirmed startState); [reflexivity|].
  rewrite (runFrames_accepted startState _ (repeat "Pen" 5) eq_refl).
  - reflexivity.
  - simpl. repeat constructor; apply accepts_pen.
Defined.

(** X20.  With the loop running, a frame on which a prediction is accepted
    and after which the history does not pass the loop's test leaves the
    category display and the mark of the target zone as they were. *)
Theorem unconfirmed_match_keeps_category_display :
  forall (st : State) (predictions : list Prediction) (pred : Prediction)
         (result : Bucket),
    running st = true ->
    firstAccepted (top3 predictions) = Some (pred, result) ->
    confirmed (pushHistory (detectionHistory st) (displayName result)) = false ->
    let p := page st in
    let p' := page (loop st true (Resolved predictions)) in
    categoryIcon p' = categoryIcon p /\
    categoryIconClass p' = categoryIconClass p /\
    hudCategory p' = hudCategory p /\
    categoryValue p' = categoryValue p /\
    detectionText p' = detectionText p /\
    detectionDotInactive p' = detectionDotInactive p /\
    targetZoneDetected p' = targetZoneDetected p.
Proof.
  intros st predictions pred result Hrun Hfirst Hc p p'. subst p p'.
  rewrite (loop_match st predictions pred result Hrun Hfirst).
  unfold onMatch, confirmed in *.
  destruct (defaultRegion (canvas st)) as [[[x y] w] h].
  destruct (getMostFrequent (pushHistory (detectionHistory st) (displayName result)))
    as [stable freq].
  rewrite Hc. destruct (Rltb (probability pred) 0.15);
    cbn -[updateConfidence cleanName]; repeat split; reflexivity.
Qed.

Lemma unconfirmed_match_keeps_category_display_witness :
  let p' := page (loop startState true (Resolved [mkPrediction "water bottle" 0.2])) in
  categoryValue p' = "Scanning..." /\ targetZoneDetected p' = false.
Proof.
  destruct (unconfirmed_match_keeps_category_display startState
              [mkPrediction "water bottle" 0.2] _ _
              eq_refl first_accepted_water_bottle eq_refl)
    as (_ & _ & _ & Hv & _ & _ & Hd).
  split; [exact Hv|exact Hd].
Defined.

(** X21.  With the loop running, a frame on which a prediction is accepted
    and after which the history passes the loop's test marks the target zone
    and shows the bucket of the accepted prediction together with the most
    frequent name of the history, which need not be the name of that
    prediction. *)
Theorem confirmed_match_shows_bucket_with_most_frequent_name :
  forall (st : State) (predictions : list Prediction) (pred : Prediction)
         (result : Bucket),
    running st = true ->
    firstAccepted (top3 predictions) = Some (pred, result) ->
    confirmed (pushHistory (detectionHistory st) (displayName result)) = true ->
    exists name freq,
      getMostFrequent (pushHistory (detectionHistory st) (displayName result))
      = (Some name, freq) /\
      name <> "" /\
      let p' := page (loop st true (Resolved predictions)) in
      targetZoneDetected p' = true /\
      categoryValue p' = bucket result /\
      hudCategory p' = styleKey (categoryConfig (bucket result)) /\
      categoryIcon p' = styleIcon (categoryConfig (bucket result)) /\
      detectionText p' = Text (cleanName name) /\
      detectionDotInactive p' = false.
Proof.
  intros st predictions pred result Hrun Hfirst Hc.
  rewrite (loop_match st predictions pred result Hrun Hfirst).
  unfold onMatch, confirmed in *.
  destruct (defaultRegion (canvas st)) as [[[x y] w] h].
  destruct (getMostFrequent (pushHistory (detectionHistory st) (displayName result)))
    as [stable freq].
  rewrite Hc. apply andb_true_iff in Hc. destruct Hc as [_ Ht].
  destruct stable as [name|]; [|discriminate]. simpl in Ht.
  exists name, freq. split; [reflexivity|].
  apply negb_true_iff in Ht. split; [now apply String.eqb_neq|].
  destruct (Rltb (probability pred) 0.15);
    cbn -[updateConfidence cleanName categoryConfig]; rewrite Ht;
    repeat split; reflexivity.
Qed.

Lemma confirmed_match_shows_bucket_with_most_frequent_name_witness :
  let st := mkState true (mkCanvas 1280 720) ["Pen"; "Pen"] 0 0 startPage in
  let p' := page (loop st true (Resolved [mkPrediction "water bottle" 0.2])) in
  categoryValue p' = "Plastic" /\ detectionText p' = Text "Pen".
Proof.
  intros st p'.
  destruct (confirmed_match_shows_bucket_with_most_frequent_name st
              [mkPrediction "water bottle" 0.2] _ _
              eq_refl first_accepted_water_bottle eq_refl)
    as (name & freq & Hg & _ & _ & Hv & _ & _ & Ht & _).
  cbn in Hg. injection Hg as <- _.
  split; [exact Hv|exact Ht].
Defined.

(** X22.  With the loop running, after frames on each of which a prediction
    is accepted, the history is what pushing the display names of the
    accepted predictions in order gives; from an empty history, their last
    five. *)
Theorem history_is_last_five_accepted_names :
  forall (st : State) (frames : list Frames.Frame) (names : list string),
    running st = true ->
    Forall2 Frames.acceptsName frames names ->
    detectionHistory (runFrames st frames) = observeAll (detectionHistory st) names /\
    (detectionHistory st = [] ->
     detectionHistory (runFrames st frames) = lastn HISTORY_SIZE names).
Proof.
  intros st frames names Hrun Hall.
  pose proof (runFrames_accepted st frames names Hrun Hall) as H.
  split; [exact H|]. intros Hempty. rewrite H, Hempty. apply observeAll_nil.
Qed.

Lemma history_is_last_five_accepted_names_witness :
  detectionHistory
    (runFrames startState (repeat (true, Resolved [mkPrediction "pen" 0.5]) 6))
  = ["Pen"; "Pen"; "Pen"; "Pen"; "Pen"].
Proof.
  assert (Hall : Forall2 Frames.acceptsName
                   (repeat (true, Resolved [mkPrediction "pen" 0.5]) 6)
                   (repeat "Pen" 6))
    by (simpl; repeat constructor; apply accepts_pen).
  exact (proj2 (history_is_last_five_accepted_names startState _ _ eq_refl Hall)
           eq_refl).
Defined.

(** X23.  The bucket of every answer of the matcher has a style: Compost and
    Plastic their own, and Landfill, which is no key of [categoryConfig], the
    style of "Landfill / Unknown", whose key is "unknown". *)
Theorem matched_bucket_has_style :
  forall (label : Label) (b : Bucket),
    mapToRecycleBucket label = Some b ->
    (bucket b = "Compost" /\
     categoryConfig (bucket b) = mkStyle FallenLeaf "compost" "compost") \/
    (bucket b = "Plastic" /\
     categoryConfig (bucket b) = mkStyle LotionBottle "plastic" "plastic") \/
    (bucket b = "Landfill" /\
     categoryConfig (bucket b) = mkStyle Wastebasket "unknown" "unknown").
Proof.
  intros label b H. apply mapToRecycleBucket_range in H.
  destruct H as [-> | [-> | [-> | ->]]]; simpl; auto.
Qed.

Lemma matched_bucket_has_style_witness :
  categoryConfig "Landfill" = mkStyle Wastebasket "unknown" "unknown".
Proof.
  destruct (matched_bucket_has_style (JStr "pen") (mkBucket "Landfill" "Pen") eq_refl)
    as [[H _] | [[H _] | [_ H]]]; [discriminate H|discriminate H|exact H].
Defined.

(** X24.  On a canvas of positive size the region the loop draws for an
    accepted prediction is a square that lies in the canvas with its centre
    on the centre of the canvas, and covers at most 0.49 of it. *)
Theorem default_region_is_centred_square :
  forall c : Canvas,
    0 < width c -> 0 < height c ->
    let '(x, y, w, h) := defaultRegion c in
    w = h /\ 0 <= x /\ 0 <= y /\
    x + w <= width c /\ y + h <= height c /\
    centerDist c (x, y, w, h) = 0 /\
    0 < sizeRatio c (x, y, w, h) <= 0.49.
Proof.
  intros c HW HH. unfold defaultRegion.
  set (size := Rmin (width c) (height c) * 0.7).
  assert (Hmin : 0 < Rmin (width c) (height c) <= width c /\
                 Rmin (width c) (height c) <= height c).
  { repeat split; [apply Rmin_glb_lt; assumption|apply Rmin_l|apply Rmin_r]. }
  repeat split; try (unfold size; lra).
  - now apply centerDist_centred.
  - unfold sizeRatio. apply Rdiv_lt_0_compat; unfold size; nra.
  - unfold sizeRatio.
    apply (Rmult_le_reg_r (width c * height c)); [nra|].
    unfold Rdiv. rewrite Rmult_assoc, Rinv_l by nra. unfold size. nra.
Qed.

Lemma default_region_is_centred_square_witness :
  let '(x, y, w, h) := defaultRegion (mkCanvas 1280 720) in
  w = h /\ 0 <= x /\ 0 <= y.
Proof.
  assert (HW : 0 < width (mkCanvas 1280 720)) by (simpl; lra).
  assert (HH : 0 < height (mkCanvas 1280 720)) by (simpl; lra).
  pose proof (default_region_is_centred_square (mkCanvas 1280 720) HW HH) as H.
  destruct (defaultRegion (mkCanvas 1280 720)) as [[[x y] w] h].
  destruct H as (H1 & H2 & H3 & _). repeat split; assumption.
Defined.

End DisplayExtras.

Section PageExtras.
Local Open Scope R_scope.

(** X25.  The tip banner, the category display and the meter are separate
    parts of the page: [updateTip], [updateCategoryUI] and the meter update
    can be applied in any order with the same result, and of two updates of
    the same part only the later one shows. *)
Theorem page_updates_are_independent :
  forall (p : Page) (key key' : TipKey) (name name' bucket bucket' objectName
          objectName' : option string) (m m' : Meter),
    updateTip key name (updateCategoryUI bucket objectName p)
    = updateCategoryUI bucket objectName (updateTip key name p) /\
    setMeter m (updateTip key name p) = updateTip key name (setMeter m p) /\
    setMeter m (updateCategoryUI bucket objectName p)
    = updateCategoryUI bucket objectName (setMeter m p) /\
    updateTip key name (updateTip key' name' p) = updateTip key name p /\
    updateCategoryUI bucket objectName (updateCategoryUI bucket' objectName' p)
    = updateCategoryUI bucket objectName p /\
    setMeter m (setMeter m' p) = setMeter m p.
Proof.
  intros p key key' name name' bucket bucket' objectName objectName' m m'.
  repeat split; try reflexivity;
    destruct bucket; try destruct bucket'; reflexivity.
Qed.

End PageExtras.

(* ====================================================================== *)
(** * The scoring over IEEE doubles *)
(* ====================================================================== *)

Section DoubleFacts.
Import PrimFloat SpecFloat FloatOps FloatAxioms.
Local Open Scope Z_scope.

Lemma shr_1_nonneg (mrs : shr_record) : 0 <= shr_m mrs -> 0 <= shr_m (shr_1 mrs).
Proof.
  destruct mrs as [m r s]; simpl. destruct m as [|[p|p|]|p]; simpl; lia.
Qed.

Lemma iter_shr_1_nonneg (p : positive) :
  forall mrs, 0 <= shr_m mrs -> 0 <= shr_m (iter_pos shr_1 p mrs).
Proof.
  induction p as [p IH|p IH|]; intros mrs H; simpl.
  - apply IH, IH, shr_1_nonneg, H.
  - apply IH, IH, H.
  - apply shr_1_nonneg, H.
Qed.

Lemma shr_fexp_nonneg (m e : Z) (l : location) :
  0 <= m -> 0 <= shr_m (fst (shr_fexp prec emax m e l)).
Proof.
  intros H. unfold shr_fexp, shr.
  assert (H0 : 0 <= shr_m (shr_record_of_loc m l)) by (destruct l as [|[]]; exact H).
  destruct (fexp prec emax (Zdigits2 m + e) - e) as [|p|p]; simpl; try exact H0.
  apply iter_shr_1_nonneg, H0.
Qed.

Lemma round_nearest_even_nonneg (m : Z) (l : location) :
  0 <= m -> 0 <= round_nearest_even m l.
Proof.
  intros H. destruct l as [|[]]; simpl; try lia. destruct (Z.even m); lia.
Qed.

(** Rounding a magnitude that is not negative to a double keeps the sign. *)
Lemma binary_round_aux_sign (m e : Z) (l : location) :
  0 <= m -> Doubles.notBelowZero (binary_round_aux prec emax false m e l) = true.
Proof.
  intros H. unfold binary_round_aux.
  pose proof (shr_fexp_nonneg m e l H) as H1.
  destruct (shr_fexp prec emax m e l) as [mrs' e']. simpl in H1.
  pose proof (shr_fexp_nonneg _ e' loc_Exact
                (round_nearest_even_nonneg _ (loc_of_shr_record mrs') H1)) as H2.
  destruct (shr_fexp prec emax _ e' loc_Exact) as [mrs'' e'']. simpl in H2.
  destruct (shr_m mrs'') as [|p|p]; try reflexivity; try lia.
  destruct (e'' <=? emax - prec); reflexivity.
Qed.

(** The product of a double not below zero and a positive finite double is
    not below zero. *)
Lemma mul_notBelowZero (x y : float) :
  Doubles.notBelowZero (Prim2SF x) = true ->
  (exists m e, Prim2SF y = S754_finite false m e) ->
  Doubles.notBelowZero (Prim2SF (x * y)%float) = true.
Proof.
  intros Hx (m & e & Hy). rewrite mul_spec, Hy. unfold SF64mul.
  destruct (Prim2SF x) as [s|s| |s mx ex]; simpl in *; try discriminate.
  - reflexivity.
  - destruct s; [discriminate|reflexivity].
  - destruct s; [discriminate|]. apply binary_round_aux_sign. lia.
Qed.

Lemma leb_zero_notBelowZero (x : float) :
  (0 <=? x)%float = true -> Doubles.notBelowZero (Prim2SF x) = true.
Proof.
  rewrite leb_spec. unfold SFleb.
  change (Prim2SF 0%float) with (S754_zero false).
  destruct (Prim2SF x) as [s|[]| |[] mx ex]; simpl; intros H;
    try reflexivity; discriminate.
Qed.

Lemma notBelowZero_is_nan (x : float) :
  Doubles.notBelowZero (Prim2SF x) = true -> is_nan x = false.
Proof.
  unfold is_nan. rewrite eqb_spec. unfold SFeqb.
  destruct (Prim2SF x) as [s|[]| |[] mx ex]; simpl; intros H;
    try reflexivity; try discriminate.
  rewrite Z.compare_refl.
  change (Pos.compare_cont Eq mx mx) with (Pos.compare mx mx).
  rewrite Pos.compare_refl. reflexivity.
Qed.

Lemma Math_min_one_notBelowZero (a : float) :
  Doubles.notBelowZero (Prim2SF a) = true ->
  Doubles.notBelowZero (Prim2SF (Doubles.Math_min a 1%float)) = true.
Proof.
  intros H. unfold Doubles.Math_min. rewrite (notBelowZero_is_nan a H).
  change (is_nan 1%float) with false. simpl.
  destruct (a <? 1)%float; [exact H|].
  destruct (1 <? a)%float; [reflexivity|].
  destruct (is_zero a && get_sign 1%float); [reflexivity|exact H].
Qed.

Lemma Math_round_notBelowZero (x : float) :
  Doubles.notBelowZero (Prim2SF x) = true ->
  exists z,
    Doubles.minWhole (Doubles.Math_round x) 100 = Doubles.Whole z /\ 0 <= z <= 100.
Proof.
  unfold Doubles.Math_round.
  destruct (Prim2SF x) as [s|[]| |[] m e]; cbn [Doubles.notBelowZero negb];
    intros H; try discriminate.
  - exists 0. split; [reflexivity|lia].
  - exists 100. split; [reflexivity|lia].
  - cbv zeta. destruct (0 <=? e) eqn:He; cbn [Doubles.minWhole];
      eexists; (split; [reflexivity|]).
    + apply Z.leb_le in He.
      assert (0 <= Z.pos m * 2 ^ e)
        by (apply Z.mul_nonneg_nonneg; [lia|apply Z.pow_nonneg; lia]).
      lia.
    + apply Z.leb_gt in He.
      assert (0 < 2 ^ (- e)) by (apply Z.pow_pos_nonneg; lia).
      assert (0 <= (2 * Z.pos m + 2 ^ (- e)) / (2 * 2 ^ (- e)))
        by (apply Z.div_pos; lia).
      lia.
Qed.

(** The percentage of a score that is not below zero is a whole number
    between 0 and 100. *)
Lemma percent_whole (score : float) :
  (0 <=? score)%float = true ->
  exists z,
    Doubles.percent (Doubles.updateConfidence score) = Doubles.Whole z /\
    0 <= z <= 100.
Proof.
  intros H. unfold Doubles.updateConfidence. cbn [Doubles.percent].
  apply Math_round_notBelowZero.
  apply mul_notBelowZero; [|eexists; eexists; reflexivity].
  apply Math_min_one_notBelowZero.
  apply mul_notBelowZero; [|eexists; eexists; reflexivity].
  apply leb_zero_notBelowZero, H.
Qed.

Lemma tier_of_whole_percent (score : float) (z : Z) :
  Doubles.percent (Doubles.updateConfidence score) = Doubles.Whole z ->
  Doubles.tier (Doubles.updateConfidence score)
  = if z <? 40 then low else if z <? 70 then medium else high.
Proof.
  unfold Doubles.updateConfidence. cbn [Doubles.percent Doubles.tier].
  intros ->. reflexivity.
Qed.

Lemma SFltb_asym (x y : spec_float) : SFltb x y = true -> SFltb y x = false.
Proof.
  unfold SFltb.
  destruct x as [sx|sx| |sx mx ex], y as [sy|sy| |sy my ey]; simpl;
    try discriminate; try reflexivity;
    try (destruct sx; simpl; try discriminate; try reflexivity;
         destruct sy; simpl; try discriminate; reflexivity);
    try (destruct sy; simpl; try discriminate; reflexivity).
  change (Pos.compare_cont Eq mx my) with (Pos.compare mx my).
  change (Pos.compare_cont Eq my mx) with (Pos.compare my mx).
  rewrite (Z.compare_antisym ex ey), (Pos.compare_antisym mx my).
  destruct sx, sy; simpl; try discriminate; try reflexivity;
    destruct (ex ?= ey); simpl; try discriminate; try reflexivity;
    destruct (mx ?= my)%positive; simpl; try discriminate; reflexivity.
Qed.

(** [Math.min(a, 1.0)] is never above 1. *)
Lemma Math_min_one_capped (a : float) : (1 <? Doubles.Math_min a 1)%float = false.
Proof.
  unfold Doubles.Math_min.
  destruct (is_nan a || is_nan 1%float); [reflexivity|].
  destruct (a <? 1)%float eqn:E1.
  - rewrite ltb_spec in *. now apply SFltb_asym.
  - destruct (1 <? a)%float eqn:E2; [reflexivity|].
    destruct (is_zero a && get_sign 1%float); [reflexivity|exact E2].
Qed.

End DoubleFacts.

Section DoubleClaims.
Import PrimFloat.
Local Open Scope float_scope.
#[local] Set Warnings "-inexact-float".

(** C6.  Over IEEE doubles, as the program computes: for a score from 0 to 1
    the meter shows [min(round(min(score * 3, 1.0) * 100), 100)] percent, a
    whole number between 0 and 100, as Low below 40, Medium from 40 and
    below 70, High from 70; 0.10 shows as 30 Low, 0.20 as 60 Medium, 0.30 as
    90 High, and 0.23166666666666666, whose product with 3 and 100 is the
    double 69.5, as 70 High. *)
Theorem confidence_percent_and_tier :
  (forall score : float,
      (0 <=? score)%float = true -> (score <=? 1)%float = true ->
      exists z : Z,
        Doubles.percent (Doubles.updateConfidence score) = Doubles.Whole z /\
        Doubles.minWhole
          (Doubles.Math_round (Doubles.Math_min (score * 3) 1.0 * 100)%float) 100
        = Doubles.Whole z /\
        (0 <= z <= 100)%Z /\
        ((z < 40)%Z -> Doubles.tier (Doubles.updateConfidence score) = low) /\
        ((40 <= z < 70)%Z -> Doubles.tier (Doubles.updateConfidence score) = medium) /\
        ((70 <= z)%Z -> Doubles.tier (Doubles.updateConfidence score) = high)) /\
  Doubles.updateConfidence 0.10 = Doubles.mkMeter (Doubles.Whole 30) low /\
  Doubles.updateConfidence 0.20 = Doubles.mkMeter (Doubles.Whole 60) medium /\
  Doubles.updateConfidence 0.30 = Doubles.mkMeter (Doubles.Whole 90) high /\
  Doubles.updateConfidence 0.23166666666666666
  = Doubles.mkMeter (Doubles.Whole 70) high.
Proof.
  split; [|repeat split; vm_compute; reflexivity].
  intros score H0 _.
  destruct (percent_whole score H0) as (z & Hp & Hz).
  pose proof (tier_of_whole_percent score z Hp) as Ht.
  exists z. split; [exact Hp|]. split; [exact Hp|]. split; [exact Hz|].
  repeat split; intros H; rewrite Ht.
  - destruct (Z.ltb_spec z 40); [reflexivity|lia].
  - destruct (Z.ltb_spec z 40); [lia|]. destruct (Z.ltb_spec z 70); [reflexivity|lia].
  - destruct (Z.ltb_spec z 40); [lia|]. destruct (Z.ltb_spec z 70); [lia|reflexivity].
Qed.

Lemma confidence_percent_and_tier_witness :
  exists z : Z,
    Doubles.percent (Doubles.updateConfidence 0.25) = Doubles.Whole z /\
    (0 <= z <= 100)%Z.
Proof.
  destruct (proj1 confidence_percent_and_tier 0.25%float eq_refl eq_refl)
    as (z & Hp & _ & Hz & _).
  exists z. split; assumption.
Defined.

(** A score that is not a number shows as [NaN] percent, in the colour of
    the High tier: both comparisons of the tier rule fail. *)
Example meter_of_not_a_number :
  Doubles.updateConfidence nan = Doubles.mkMeter Doubles.NotANumber high.
Proof. vm_compute. reflexivity. Qed.

(** C7.  Over IEEE doubles, as the program computes: whatever the canvas, the
    box and the score, the answer is [null] exactly when the share of the
    frame the box covers, (w * h) / (canvas.width * canvas.height), compares
    below 0.02 or above 0.85, then whatever the score; otherwise it is a
    number, the boosted score capped by [Math.min] at 1. *)
Theorem rejects_exactly_outside_size_bounds :
  forall canvasWidth canvasHeight x y w h score : float,
    let ratio := ((w * h) / (canvasWidth * canvasHeight))%float in
    (Doubles.validateAndScoreDetection canvasWidth canvasHeight (x, y, w, h) score
     = None <->
     (ratio <? 0.02)%float = true \/ (0.85 <? ratio)%float = true) /\
    (forall score' : float,
        Doubles.validateAndScoreDetection canvasWidth canvasHeight (x, y, w, h) score
        = None ->
        Doubles.validateAndScoreDetection canvasWidth canvasHeight (x, y, w, h) score'
        = None) /\
    ((ratio <? 0.02)%float = false -> (0.85 <? ratio)%float = false ->
     exists adjusted : float,
       Doubles.validateAndScoreDetection canvasWidth canvasHeight (x, y, w, h) score
       = Some adjusted /\
       (1 <? adjusted)%float = false).
Proof.
  intros canvasWidth canvasHeight x y w h score ratio.
  unfold Doubles.validateAndScoreDetection.
  change (Doubles.sizeRatio canvasWidth canvasHeight w h) with ratio.
  destruct (ratio <? 0.02)%float eqn:E1; [|destruct (0.85 <? ratio)%float eqn:E2];
    cbn [orb]; (split; [|split]).
  - split; auto.
  - reflexivity.
  - discriminate.
  - split; auto.
  - reflexivity.
  - discriminate.
  - split; [discriminate|]. intros [H|H]; discriminate.
  - discriminate.
  - intros _ _. eexists. split; [reflexivity|]. apply Math_min_one_capped.
Qed.

Lemma rejects_exactly_outside_size_bounds_witness :
  Doubles.validateAndScoreDetection 640 480 (0, 0, 64, 48) 0.9 = None /\
  exists adjusted : float,
    Doubles.validateAndScoreDetection 1280 720 (0, 0, 93.12, 197.9381443298969) 0.5
    = Some adjusted.
Proof.
  split.
  - apply (proj1 (rejects_exactly_outside_size_bounds 640 480 0 0 64 48 0.9)).
    left. vm_compute. reflexivity.
  - destruct (proj2 (proj2 (rejects_exactly_outside_size_bounds
                              1280 720 0 0 93.12 197.9381443298969 0.5))
                eq_refl eq_refl) as (adjusted & H & _).
    exists adjusted. exact H.
Defined.

(** On a canvas without area the share is not a number, neither comparison
    holds and the answer is [NaN], not [null]. *)
Example score_on_a_canvas_without_area :
  Doubles.validateAndScoreDetection 0 0 (0, 0, 0, 0) 0.5 = Some nan.
Proof. vm_compute. reflexivity. Qed.

(** A box whose share of a 1280 x 720 frame is the double 0.02 is kept. *)
Example box_at_the_lower_size_bound :
  Doubles.sizeRatio 1280 720 93.12 197.9381443298969 = 0.02%float /\
  Doubles.validateAndScoreDetection 1280 720 (0, 0, 93.12, 197.9381443298969) 0.5
  <> None.
Proof. split; vm_compute; [reflexivity|discriminate]. Qed.

End DoubleClaims.

(* ====================================================================== *)
(** * The history over a run of frames *)
(* ====================================================================== *)

Section StabilizerFacts.
Local Open Scope R_scope.

(** The history after a run of frames is the history of the names the run
    has the loop append. *)
Lemma runFrames_observed (frames : list Frames.Frame) (names : list string) :
  Frames.observed frames names ->
  forall st : State,
    running st = true ->
    detectionHistory (runFrames st frames) = observeAll (detectionHistory st) names.
Proof.
  induction 1 as [|[ready answer] name frames names Hacc _ IH
                  |[ready answer] frames names Hskip _ IH];
    intros st Hrun; simpl.
  - reflexivity.
  - destruct Hacc as (Hready & predictions & pred & result & Hanswer & Hfirst & Hname).
    simpl in Hready, Hanswer. subst ready answer name.
    rewrite (loop_match st predictions pred result Hrun Hfirst).
    destruct (onMatch_fields st pred result) as (Hr & _ & Hh & _).
    rewrite IH by (rewrite Hr; exact Hrun). now rewrite Hh.
  - destruct Hskip as [Hidle | Hmiss].
    + pose proof (loop_idle st (ready, answer) Hidle) as Hl. simpl in Hl.
      rewrite Hl. now apply IH.
    + destruct (loop_miss st (ready, answer) Hrun Hmiss) as (_ & Hh).
      simpl in Hh. destruct (loop_untouched st ready answer) as (Hr & _).
      rewrite IH by (rewrite Hr; exact Hrun). now rewrite Hh.
Qed.

Lemma misses_car : Frames.isMiss (true, Resolved [mkPrediction "sports car" 0.9]).
Proof.
  split; [reflexivity|].
  exists (mkPrediction "sports car" 0.9), []. split; reflexivity.
Qed.

End StabilizerFacts.

Section StabilizerClaims.
Local Open Scope R_scope.

(** C2.  For every run of frames of the running loop from the empty history:
    when the frames with an accepted prediction give, among the last five of
    their display names, some name at least twice, the history passes the
    loop's test [freq >= MIN_FREQUENCY && stableName], and when the test
    passes the loop marks the target zone as detected; a history of five
    names that are all different fails the test (the matcher gives four
    names only, so that the loop itself never holds five different names).
    The matcher gives no empty name, and in every state the loop reaches
    from the empty history with some name twice in the history the test
    passes. *)
Theorem repeated_name_is_confirmed :
  (forall (st : State) (frames : list Frames.Frame) (names : list string)
          (name : string),
      running st = true ->
      detectionHistory st = [] ->
      Frames.observed frames names ->
      (MIN_FREQUENCY <= count_occ string_dec (lastn HISTORY_SIZE names) name)%nat ->
      detectionHistory (runFrames st frames) = lastn HISTORY_SIZE names /\
      confirmed (detectionHistory (runFrames st frames)) = true) /\
  (forall names : list string,
      List.length names = HISTORY_SIZE ->
      NoDup names ->
      confirmed (observeAll [] names) = false) /\
  (forall (label : Label) (b : Bucket),
      mapToRecycleBucket label = Some b -> displayName b <> "") /\
  (forall (st : State) (frames : list (bool * Classified)) (name : string),
      detectionHistory st = [] ->
      (MIN_FREQUENCY <= count_occ string_dec (detectionHistory (runFrames st frames)) name)%nat ->
      confirmed (detectionHistory (runFrames st frames)) = true) /\
  (forall (st : State) (pred : Prediction) (result : Bucket),
      confirmed (pushHistory (detectionHistory st) (displayName result)) = true ->
      targetZoneDetected (page (onMatch st pred result)) = true).
Proof.
  split; [|repeat split].
  - intros st frames names name Hrun Hempty Hobs Hcount.
    assert (Hh : detectionHistory (runFrames st frames) = lastn HISTORY_SIZE names).
    { rewrite (runFrames_observed frames names Hobs st Hrun), Hempty.
      apply observeAll_nil. }
    split; [exact Hh|].
    apply confirmed_true with (name := name).
    + apply runFrames_history_named. rewrite Hempty. constructor.
    + rewrite Hh. exact Hcount.
  - intros names Hlen Hnd. rewrite observeAll_nil, lastn_all by lia.
    now apply confirmed_false.
  - intros label b H. now apply (displayName_clean label b).
  - intros st frames name Hempty Hcount.
    apply confirmed_true with (name := name); [|exact Hcount].
    apply runFrames_history_named. rewrite Hempty. constructor.
  - intros st pred result Hc.
    destruct (onMatch_fields st pred result)
      as (_ & _ & Hh & _ & _ & _ & _ & _ & _ & _ & Hd).
    rewrite Hh in Hd. now apply Hd.
Qed.

Lemma repeated_name_is_confirmed_witness :
  confirmed
    (detectionHistory
       (runFrames startState
          [ (true, Resolved [mkPrediction "pen" 0.5]);
            (true, Resolved [mkPrediction "sports car" 0.9]);
            (false, Rejected);
            (true, Resolved [mkPrediction "pen" 0.5]) ])) = true.
Proof.
  apply (proj1 repeated_name_is_confirmed startState _ ["Pen"; "Pen"] "Pen").
  - reflexivity.
  - reflexivity.
  - apply Frames.observed_hit; [exact accepts_pen|].
    apply Frames.observed_skip; [right; exact misses_car|].
    apply Frames.observed_skip; [left; left; reflexivity|].
    apply Frames.observed_hit; [exact accepts_pen|].
    apply Frames.observed_nil.
  - vm_compute. apply le_n.
Defined.

End StabilizerClaims.
